(** * download_pge_ica_timeseries.py: a shallow embedding

    The script drives a browser through the PG&E ICA map, downloads one
    archive per feeder, reads the table inside it, deletes the archive and
    saves the table as [<id>.csv].  Everything the script touches outside
    its own variables (browser, portal, the two folders, the clock, the
    console) is gathered in a [world]; the script's functions are state
    transformers over it that may raise a Python exception. *)

From stdpp Require Import base strings gmap list sorting pretty.
From Stdlib Require Import ZArith Ascii.

(** ** Python [str] methods used by the script *)

Module Str.

(** [s.startswith(p)]. *)
Fixpoint startswith (p s : string) : bool :=
  match p with
  | EmptyString => true
  | String a p' =>
      match s with
      | EmptyString => false
      | String b s' => Ascii.eqb a b && startswith p' s'
      end
  end.

(** Left-to-right scan of [str.replace] for a non-empty [old]: [skip]
    counts the characters of a match that are still to be dropped. *)
Fixpoint replace_from (skip : nat) (old new s : string) : string :=
  match s with
  | EmptyString => EmptyString
  | String c s' =>
      match skip with
      | S k => replace_from k old new s'
      | O =>
          if startswith old s
          then new +:+ replace_from (String.length old - 1) old new s'
          else String c (replace_from 0 old new s')
      end
  end.

(** With an empty [old] Python puts [new] before every character and at
    the end. *)
Fixpoint interleave (new s : string) : string :=
  match s with
  | EmptyString => new
  | String c s' => new +:+ String c (interleave new s')
  end.

(** [s.replace(old, new)]: every non-overlapping occurrence, leftmost
    first. *)
Definition replace (s old new : string) : string :=
  match old with
  | EmptyString => interleave new s
  | String _ _ => replace_from 0 old new s
  end.

(** [s.removeprefix(p)] when [s] starts with [p], nothing otherwise. *)
Fixpoint strip_prefix (p s : string) : option string :=
  match p with
  | EmptyString => Some s
  | String a p' =>
      match s with
      | EmptyString => None
      | String b s' => if decide (a = b) then strip_prefix p' s' else None
      end
  end.

(** [old in s]. *)
Fixpoint contains (old s : string) : bool :=
  startswith old s ||
  match s with
  | EmptyString => false
  | String _ s' => contains old s'
  end.

(** [s.endswith(suf)]. *)
Fixpoint endswith (suf s : string) : bool :=
  String.eqb s suf ||
  match s with
  | EmptyString => false
  | String _ s' => endswith suf s'
  end.

(** [str.lower] on the ASCII letters. *)
Definition lower_ascii (c : ascii) : ascii :=
  let n := nat_of_ascii c in
  if (65 <=? n)%nat && (n <=? 90)%nat then ascii_of_nat (n + 32) else c.

Fixpoint lower (s : string) : string :=
  match s with
  | EmptyString => EmptyString
  | String c s' => String (lower_ascii c) (lower s')
  end.

End Str.

(** ** Exceptions, files and the world around the script *)

(** The Python exceptions that occur.  [UnboundLocalError] is the subclass
    of [NameError] that Python raises when a function reads one of its own
    variables before any assignment to it has run. *)
Inductive exn :=
| NoSuchElementException
| NoSuchWindowException
| FileNotFoundError
| BadZipFile
| KeyError (key : string)
| UnboundLocalError (name : string)
| DriverError (path : string)
| AttributeError (name : string).

Definition is_NameError (e : exn) : bool :=
  match e with UnboundLocalError _ => true | _ => false end.

(** A parsed csv: rows of cells. *)
Definition table : Type := list (list string).

(** A file of the download folder: either not a readable archive, or an
    archive with its members already parsed. *)
Inductive archive :=
| CorruptZip
| Zip (members : gmap string table).

(** What the portal answers for a URL: the file name the browser saves
    under, the seconds the transfer takes, and the content. *)
Record download := Download {
  dl_name : string;
  dl_delay : nat;
  dl_content : archive
}.

Inductive locator :=
| ById (id : string)
| ByXPath (xpath : string).

Global Instance locator_eq_dec : EqDecision locator.
Proof. solve_decision. Defined.

(** What the script does to the outside, in order. *)
Inductive event :=
| ReadFile (path : string)
| Chdir (path : string)
| LaunchChrome
| Get (url : string)
| FindElement (loc : locator)
| SendKeys (loc : locator) (keys : string)
| Click (loc : locator)
| Sleep (secs : nat)
| Print (line : string)
| PrintList (items : list string)
| ZipOpen (path : string)
| Remove (path : string)
| ToCsv (path : string).

Record world := World {
  (** for every shapefile that can be read, its FeederID column if it
      has one *)
  shapefiles : gmap string (option (list string));
  (** what the portal serves, by URL *)
  portal : gmap string download;
  (** for each coming navigation, whether the browser window is gone *)
  window_faults : list bool;
  (** seconds until each element of the login page is in the DOM *)
  page : list (locator * nat);
  (** transfers the browser has started and not finished *)
  in_flight : list download;
  (** Chrome's download folder, by file name *)
  download_folder : gmap string archive;
  (** the folder [df_dir], which the script makes its current directory,
      by file name *)
  output_folder : gmap string table;
  (** the path under which the operating system reports that folder *)
  cwd : string;
  (** the paths that name a folder the script can make its current
      directory *)
  folders : gset string;
  (** what [glob.glob] returns, given the tables of the current folder,
      for a pattern whose matches depend on folders that the world does
      not describe *)
  glob_elsewhere : gmap string table → string → list string;
  (** the rank that fixes the iteration order of a [set] of strings in
      this run of the interpreter *)
  str_rank : string → nat;
  trace : list event
}.

Definition log (e : event) (w : world) : world :=
  World (shapefiles w) (portal w) (window_faults w) (page w) (in_flight w)
        (download_folder w) (output_folder w) (cwd w) (folders w) (glob_elsewhere w) (str_rank w) (trace w ++ [e]).

Definition set_window_faults (f : list bool) (w : world) : world :=
  World (shapefiles w) (portal w) f (page w) (in_flight w)
        (download_folder w) (output_folder w) (cwd w) (folders w) (glob_elsewhere w) (str_rank w) (trace w).

Definition set_page (p : list (locator * nat)) (w : world) : world :=
  World (shapefiles w) (portal w) (window_faults w) p (in_flight w)
        (download_folder w) (output_folder w) (cwd w) (folders w) (glob_elsewhere w) (str_rank w) (trace w).

Definition set_in_flight (l : list download) (w : world) : world :=
  World (shapefiles w) (portal w) (window_faults w) (page w) l
        (download_folder w) (output_folder w) (cwd w) (folders w) (glob_elsewhere w) (str_rank w) (trace w).

Definition set_download_folder (d : gmap string archive) (w : world) : world :=
  World (shapefiles w) (portal w) (window_faults w) (page w) (in_flight w)
        d (output_folder w) (cwd w) (folders w) (glob_elsewhere w) (str_rank w) (trace w).

Definition set_output_folder (o : gmap string table) (w : world) : world :=
  World (shapefiles w) (portal w) (window_faults w) (page w) (in_flight w)
        (download_folder w) o (cwd w) (folders w) (glob_elsewhere w) (str_rank w) (trace w).

(** A finished transfer appears in the download folder. *)
Definition land (d : download) (w : world) : world :=
  set_download_folder (<[dl_name d := dl_content d]> (download_folder w)) w.

(** [secs] seconds pass: transfers that are due land, in the order they
    were started, the others and the page get closer. *)
Definition tick (secs : nat) (w : world) : world :=
  let due := filter (λ d, dl_delay d ≤ secs) (in_flight w) in
  let rest := filter (λ d, ¬ dl_delay d ≤ secs) (in_flight w) in
  let later d := Download (dl_name d) (dl_delay d - secs) (dl_content d) in
  let w := set_in_flight (later <$> rest) w in
  let w := set_page (prod_map id (λ n, n - secs) <$> page w) w in
  foldl (λ w d, land d w) w due.

(** ** Computations: a world transformer that returns, raises, or is cut
    off because a loop was given too few iterations *)

Inductive result (A : Type) :=
| Returned (a : A)
| Raised (e : exn)
| OutOfFuel.
Arguments Returned {A} a.
Arguments Raised {A} e.
Arguments OutOfFuel {A}.

Definition M (A : Type) : Type := world → result A * world.

Global Instance M_ret : MRet M := λ A a w, (Returned a, w).

Global Instance M_bind : MBind M := λ A B f m w,
  match m w with
  | (Returned a, w') => f a w'
  | (Raised e, w') => (Raised e, w')
  | (OutOfFuel, w') => (OutOfFuel, w')
  end.

Definition raise {A} (e : exn) : M A := λ w, (Raised e, w).

(** [try: body except <classes of handler>: ...]: an exception for which
    [handler] has no clause passes through. *)
Definition try_except {A} (body : M A) (handler : exn → option (M A)) : M A :=
  λ w,
    match body w with
    | (Raised e, w') =>
        match handler e with
        | Some h => h w'
        | None => (Raised e, w')
        end
    | r => r
    end.

(** How an iteration of a loop ends: at the bottom of the body, or at a
    [break]. *)
Inductive flow := Next | Break.

(** [while cond: body] over the local variables [L]; [fuel] bounds the
    number of iterations, and a loop that wants more is [OutOfFuel]. *)
Fixpoint while {L} (fuel : nat) (cond : L → bool) (body : L → M (flow * L))
    (l : L) : M L :=
  if cond l then
    match fuel with
    | O => λ w, (OutOfFuel, w)
    | S fuel' =>
        r ← body l;
        match r with
        | (Break, l') => mret l'
        | (Next, l') => while fuel' cond body l'
        end
    end
  else mret l.

(** [for x in xs: body]. *)
Fixpoint for_each {A} (xs : list A) (body : A → M unit) : M unit :=
  match xs with
  | [] => mret tt
  | x :: xs' => body x ;; for_each xs' body
  end.

(** ** The parameters the user sets at the top of the script *)

Record config := Config {
  feedershp_dir : string;
  download_dir : string;
  df_dir : string;
  username : string;
  password : string;
  download_csvs : bool;
  tries : Z
}.

(** The values in the repository: paths and credentials are left empty for
    the user to fill in. *)
Definition source_config : config := Config "" "" "" "" "" true 20.

Definition login_url : string :=
  "https://www.pge.com/b2b/distribution-resource-planning/integration-capacity-map.shtml".
Definition data_url : string :=
  "https://www.pge.com/b2b/distribution-resource-planning/downloads/integration-capacity/".

(** The one-character string made of a backslash. *)
Definition backslash : string := String (ascii_of_nat 92) EmptyString.

(** ** Python integers and truth *)

(** [~b] on a [bool]: the bitwise complement of the integer [b] is. *)
Definition invert (b : bool) : Z := Z.lnot (Z.b2z b).

(** The truth value of an integer in an [if]. *)
Definition truthy (z : Z) : bool := negb (z =? 0)%Z.

(** ** The library calls the script makes *)

(** The order in which a [set] of strings is iterated. *)
Definition by_rank (rank : string → nat) : relation string :=
  λ a b, rank a ≤ rank b.

Global Instance by_rank_dec (rank : string → nat) : RelDecision (by_rank rank).
Proof. intros a b. unfold by_rank. apply _. Defined.

Section Library.

Context (cfg : config).

Definition print (line : string) : M unit :=
  λ w, (Returned tt, log (Print line) w).

Definition print_list (items : list string) : M unit :=
  λ w, (Returned tt, log (PrintList items) w).

(** [time.sleep(secs)] *)
Definition time_sleep (secs : nat) : M unit :=
  λ w, (Returned tt, tick secs (log (Sleep secs) w)).

(** [driver.get(url)]: fails when the window is gone; otherwise the
    browser starts saving what the portal serves for [url], if
    anything. *)
Definition driver_get (url : string) : M unit :=
  λ w,
    let w := log (Get url) w in
    let start w :=
      match portal w !! url with
      | Some d =>
          if decide (dl_delay d = 0) then land d w
          else set_in_flight (in_flight w ++ [d]) w
      | None => w
      end in
    match window_faults w with
    | true :: faults => (Raised NoSuchWindowException, set_window_faults faults w)
    | false :: faults => (Returned tt, start (set_window_faults faults w))
    | [] => (Returned tt, start w)
    end.

(** Whether the element is in the DOM by now. *)
Definition in_dom (loc : locator) (w : world) : bool :=
  match list_find (λ e, e.1 = loc) (page w) with
  | Some (_, (_, 0)) => true
  | _ => false
  end.

(** [driver.find_element(...)] *)
Definition find_element (loc : locator) : M locator :=
  λ w,
    let w := log (FindElement loc) w in
    if in_dom loc w then (Returned loc, w)
    else (Raised NoSuchElementException, w).

Definition send_keys (element : locator) (keys : string) : M unit :=
  λ w, (Returned tt, log (SendKeys element keys) w).

Definition click (element : locator) : M unit :=
  λ w, (Returned tt, log (Click element) w).

(** The file of the download folder that [path] names, if [path] lies
    in [download_dir]. *)
Definition in_download_dir (path : string) (w : world) : option (string * archive) :=
  name ← Str.strip_prefix (download_dir cfg) path;
  a ← download_folder w !! name;
  Some (name, a).

(** [ZipFile(path)] *)
Definition ZipFile (path : string) : M (gmap string table) :=
  λ w,
    let w := log (ZipOpen path) w in
    match in_download_dir path w with
    | None => (Raised FileNotFoundError, w)
    | Some (_, CorruptZip) => (Raised BadZipFile, w)
    | Some (_, Zip members) => (Returned members, w)
    end.

(** [pd.read_csv(zf.open(name))] *)
Definition read_csv_member (zf : gmap string table) (name : string) : M table :=
  match zf !! name with
  | Some t => mret t
  | None => raise (KeyError name)
  end.

(** [os.remove(path)] *)
Definition os_remove (path : string) : M unit :=
  λ w,
    let w := log (Remove path) w in
    match in_download_dir path w with
    | None => (Raised FileNotFoundError, w)
    | Some (name, _) =>
        (Returned tt, set_download_folder (delete name (download_folder w)) w)
    end.

(** [df.to_csv(path, index=False)] with a path relative to the current
    directory. *)
Definition to_csv (df : table) (path : string) : M unit :=
  λ w,
    let w := log (ToCsv path) w in
    (Returned tt, set_output_folder (<[path := df]> (output_folder w)) w).

(** [os.getcwd()] *)
Definition os_getcwd : M string := λ w, (Returned (cwd w), w).

(** [os.chdir(path)]: fails when there is no such folder; otherwise the
    current directory is the output folder from here on. *)
Definition os_chdir (path : string) : M unit :=
  λ w,
    let w := log (Chdir path) w in
    if decide (path ∈ folders w) then (Returned tt, w)
    else (Raised FileNotFoundError, w).

(** What a name has to look like for the shell pattern [*.csv]: it ends
    in [.csv], compared without regard to case as Windows does, and a
    leading dot is never matched by [*]. *)
Definition fnmatch_csv (name : string) : bool :=
  negb (Str.startswith "." name) && Str.endswith ".csv" (Str.lower name).

(** [glob.has_magic]: with one of these characters in it, [glob] reads
    a path as a pattern, not as a name. *)
Definition has_magic (s : string) : bool :=
  Str.contains "*" s || Str.contains "?" s || Str.contains "[" s.

(** The two separators of a Windows path. *)
Definition is_sep (c : ascii) : bool :=
  Ascii.eqb c "/" || Ascii.eqb c (ascii_of_nat 92).

Fixpoint ends_with_sep (s : string) : bool :=
  match s with
  | EmptyString => false
  | String c EmptyString => is_sep c
  | String _ s' => ends_with_sep s'
  end.

(** The path of a folder below the root of a drive, as [os.getcwd()]
    gives it on Windows: the drive with its colon, then a path that does
    not end in a separator.  For such a [dir], [os.path.split] takes
    [dir + "/*.csv"] apart into [dir] and [*.csv], and [os.path.join]
    puts one backslash between [dir] and a file name. *)
Definition below_drive_root (dir : string) : bool :=
  match dir with
  | String _ (String ":" (String c rest)) => negb (ends_with_sep (String c rest))
  | _ => false
  end.

(** What [glob.glob(pattern)] returns.  For [<dir>/*.csv], where [dir] is
    the current folder, below the root of its drive and without a
    character that [glob] reads as a pattern, these are the names of the
    folder that [*.csv] matches, each joined to [dir] by a backslash.
    For any other pattern the answer depends on what the world does not
    describe: with a bracket in [dir] glob lists the folders that match
    [dir] as a pattern, which need not include [dir] itself; at the root
    of a drive the names are joined without a backslash of their own, in
    a form that has changed between versions of [ntpath]. *)
Definition glob_csv (pattern : string) (w : world) : list string :=
  if decide (Str.strip_prefix (cwd w) pattern = Some "/*.csv") then
    if below_drive_root (cwd w) && negb (has_magic (cwd w)) then
      let names := filter (λ n, fnmatch_csv n = true)
                     (map_to_list (output_folder w)).*1 in
      (λ n, cwd w +:+ backslash +:+ n) <$> names
    else glob_elsewhere w (output_folder w) pattern
  else glob_elsewhere w (output_folder w) pattern.

(** [glob.glob(pattern)] *)
Definition glob_glob (pattern : string) : M (list string) :=
  λ w, (Returned (glob_csv pattern w), w).

(** [gpd.read_file(path).FeederID.to_numpy()] *)
Definition read_feeder_ids (path : string) : M (list string) :=
  λ w,
    let w := log (ReadFile path) w in
    match shapefiles w !! path with
    | Some (Some ids) => (Returned ids, w)
    | Some None => (Raised (AttributeError "FeederID"), w)
    | None => (Raised (DriverError path), w)
    end.

(** [webdriver.Chrome(ChromeDriverManager().install())] *)
Definition launch_chrome : M unit :=
  λ w, (Returned tt, log LaunchChrome w).

(** [list(s)] for a set of strings: the elements in the order of their
    rank in this run. *)
Definition list_of_set (s : gset string) : M (list string) :=
  λ w, (Returned (merge_sort (by_rank (str_rank w)) (elements s)), w).

End Library.

(** ** The script *)

(** The local variables of the second loop of [process_zip]: the
    counter, the flag, and the table if one has been bound. *)
Abbreviation locals := (Z * bool * option table)%type.

Section Script.

Context (cfg : config).

(** One pass through the body of the loop of [login]. *)
Definition login_body (username password : string) (i : Z) : M (flow * Z) :=
  try_except
    (e ← find_element (ById "username");
     send_keys e username ;;
     e ← find_element (ByXPath "//input[@placeholder='Password']");
     send_keys e password ;;
     e ← find_element (ById "submit");
     click e ;;
     mret (Break, i))
    (λ e, match e with
          | NoSuchElementException =>
              Some (let i := (i + 1)%Z in
                    time_sleep 2 ;;
                    mret (Next, i))
          | _ => None
          end).

(** [while i < tries: ...] of [login], from any value of [i]. *)
Definition login_loop (fuel : nat) (username password : string) (i : Z) : M Z :=
  while fuel (λ i, (i <? tries cfg)%Z) (login_body username password) i.

(** [login(driver, login_url, username, password)] *)
Definition login (fuel : nat) (login_url username password : string) : M unit :=
  driver_get login_url ;;
  time_sleep 2 ;;
  let i := 0%Z in
  _ ← login_loop fuel username password i;
  time_sleep 3.

(** One pass through the body of the first loop of [process_zip]. *)
Definition fetch_body (data_url id : string) (i : Z) : M (flow * Z) :=
  try_except
    (let url := data_url +:+ id +:+ ".zip" in
     driver_get url ;;
     print ("downloaded " +:+ id) ;;
     mret (Break, i))
    (λ e, match e with
          | NoSuchWindowException =>
              Some (print "no such window..." ;;
                    let i := (i + 1)%Z in
                    time_sleep 1 ;;
                    mret (Next, i))
          | _ => None
          end).

Definition fetch_loop (fuel : nat) (data_url id : string) (i : Z) : M Z :=
  while fuel (λ i, (i <? tries cfg)%Z) (fetch_body data_url id) i.

(** [process_zip], first loop: download zip file. *)
Definition fetch (fuel : nat) (data_url id : string) : M Z :=
  let i := 0%Z in
  fetch_loop fuel data_url id i.

(** One pass through the body of the second loop. *)
Definition extract_body (id : string) (l : locals) : M (flow * locals) :=
  let '(i, badzip, df) := l in
  try_except
    (print ("trying " +:+ id) ;;
     zf ← ZipFile cfg (download_dir cfg +:+ id +:+ ".zip");
     print ("opened " +:+ id) ;;
     df ← read_csv_member zf (id +:+ ".csv");
     mret (Break, (i, badzip, Some df)))
    (λ e, match e with
          | FileNotFoundError =>
              Some (let i := (i + 1)%Z in
                    time_sleep 2 ;;
                    mret (Next, (i, badzip, df)))
          | BadZipFile =>
              Some (let i := tries cfg in
                    let badzip := true in
                    mret (Next, (i, badzip, df)))
          | _ => None
          end).

Definition extract_loop (fuel : nat) (id : string) (l : locals) : M locals :=
  while fuel (λ l, (l.1.1 <? tries cfg)%Z) (extract_body id) l.

(** [process_zip], second loop: open zipfile and save csv to dataframe.
    On entry [df] has not been assigned. *)
Definition extract (fuel : nat) (id : string) : M locals :=
  let i := 0%Z in
  let badzip := false in
  extract_loop fuel id (i, badzip, None).

(** One pass through the body of the third loop. *)
Definition cleanup_body (id : string) (badzip : bool) (i : Z) : M (flow * Z) :=
  if truthy (invert badzip) then
    try_except
      (print ("trying to delete " +:+ id) ;;
       os_remove cfg (download_dir cfg +:+ id +:+ ".zip") ;;
       print ("deleted " +:+ id) ;;
       mret (Break, i))
      (λ e, match e with
            | FileNotFoundError =>
                Some (let i := (i + 1)%Z in
                      time_sleep 2 ;;
                      mret (Next, i))
            | _ => None
            end)
  else mret (Next, i).

Definition cleanup_loop (fuel : nat) (id : string) (badzip : bool) (i : Z) : M Z :=
  while fuel (λ i, (i <? tries cfg)%Z) (cleanup_body id badzip) i.

(** [process_zip], third loop: delete zipfile. *)
Definition cleanup (fuel : nat) (id : string) (badzip : bool) : M Z :=
  let i := 0%Z in
  cleanup_loop fuel id badzip i.

(** [process_zip], last statement: save csv to folder.  Reading [df]
    when no assignment to it has run raises. *)
Definition save (id : string) (badzip : bool) (df : option table) : M unit :=
  if truthy (invert badzip) then
    match df with
    | Some df => to_csv df (id +:+ ".csv")
    | None => raise (UnboundLocalError "df")
    end
  else mret tt.

(** [process_zip(driver, data_url, id)] *)
Definition process_zip (fuel : nat) (data_url id : string) : M unit :=
  _ ← fetch fuel data_url id;
  l ← extract fuel id;
  let '(_, badzip, df) := l in
  _ ← cleanup fuel id badzip;
  save id badzip df.

(** [get_csv_list()] *)
Definition get_csv_list : M (list string) :=
  here ← os_getcwd;
  csvs_dl_list ← glob_glob (here +:+ "/*.csv");
  here ← os_getcwd;
  let csvs_dl_list :=
    (λ sub, Str.replace sub (here +:+ backslash) "") <$> csvs_dl_list in
  let csvs_dl_list := (λ sub, Str.replace sub ".csv" "") <$> csvs_dl_list in
  mret csvs_dl_list.

(** [list(set(feeder_id_list.tolist()) - set(csvs_dl))] *)
Definition missing (feeder_id_list csvs_dl : list string) : M (list string) :=
  list_of_set (list_to_set feeder_id_list ∖ list_to_set csvs_dl).

(** The statements under [if download_csvs:]. *)
Definition acquisition_pass (fuel : nat) (feeder_id_list : list string) : M unit :=
  launch_chrome ;;
  login fuel login_url (username cfg) (password cfg) ;;
  csvs_dl ← get_csv_list;
  csvs_missing ← missing feeder_id_list csvs_dl;
  print ("retrieving " +:+ pretty (length csvs_missing) +:+ " feeder IDs") ;;
  for_each csvs_missing (λ id,
    print id ;;
    process_zip fuel data_url id) ;;
  csvs_dl_final ← get_csv_list;
  csvs_missing_final ← missing feeder_id_list csvs_dl_final;
  print "IDs that weren't processed:" ;;
  print_list csvs_missing_final.

(** The module, top to bottom. *)
Definition main (fuel : nat) : M unit :=
  feeder_id_list ← read_feeder_ids (feedershp_dir cfg);
  os_chdir (df_dir cfg) ;;
  if download_csvs cfg then acquisition_pass fuel feeder_id_list
  else mret tt.

End Script.

(** * Vocabulary of the statements *)

(** A computation [preserves] a relation between the worlds before and
    after when every run of it is in the relation, however it ends. *)
Definition preserves {A} (R : relation world) (m : M A) : Prop :=
  ∀ w, R w (m w).2.

(** The output folder, its name and the order of sets are the same in
    both worlds, and so is what [glob] finds elsewhere. *)
Definition same_output : relation world :=
  λ w w', output_folder w' = output_folder w ∧ cwd w' = cwd w
          ∧ str_rank w' = str_rank w
          ∧ glob_elsewhere w' = glob_elsewhere w.

(** The second world's trace is the first's followed by events that all
    satisfy [P]. *)
Definition grows_by (P : event → Prop) : relation world :=
  λ w w', ∃ events, trace w' = trace w ++ events ∧ Forall P events.

(** The event is not a table being written. *)
Definition not_to_csv (e : event) : Prop :=
  match e with ToCsv _ => False | _ => True end.

(** Every navigation among the events goes to a URL in [urls]. *)
Definition gets_within (urls : string → Prop) (e : event) : Prop :=
  match e with Get url => urls url | _ => True end.

Section WorkerVocabulary.

Context (cfg : config).

(** The path [process_zip] opens and deletes. *)
Definition zip_path (id : string) : string := download_dir cfg +:+ id +:+ ".zip".

(** What a pass that does not find the archive leaves in the trace. *)
Definition missing_attempt (id : string) : list event :=
  [Print ("trying " +:+ id); ZipOpen (zip_path id); Sleep 2].

(** The iterations a counter at [i] has left. *)
Definition iterations_left (i : Z) : nat := Z.to_nat (tries cfg - i).

End WorkerVocabulary.

(** The three elements [login] looks up. *)
Definition username_field : locator := ById "username".
Definition password_field : locator := ByXPath "//input[@placeholder='Password']".
Definition submit_button : locator := ById "submit".

(** What one pass of the loop of [login] does to the browser, given
    which of the three elements are there. *)
Definition attempt_events (u p : string) (w : world) : list event :=
  FindElement username_field ::
  if in_dom username_field w then
    SendKeys username_field u :: FindElement password_field ::
    if in_dom password_field w then
      SendKeys password_field p :: FindElement submit_button ::
      if in_dom submit_button w then [Click submit_button] else []
    else []
  else [].

(** All three elements are there. *)
Definition attempt_succeeds (w : world) : bool :=
  in_dom username_field w && in_dom password_field w && in_dom submit_button w.

(** The world with [events] added to its trace, in order. *)
Definition logs (events : list event) (w : world) : world :=
  foldl (λ w e, log e w) w events.

(** The attempts to open an archive among [events]. *)
Definition is_zip_open (e : event) : bool :=
  match e with ZipOpen _ => true | _ => false end.

Definition zip_opens (events : list event) : nat :=
  length (filter (λ e, is_zip_open e = true) events).

(** A pass that finds all three elements. *)
Definition filled_and_submitted (u p : string) : list event :=
  [FindElement username_field; SendKeys username_field u;
   FindElement password_field; SendKeys password_field p;
   FindElement submit_button; Click submit_button].

(** A pass that stops at the first, the second or the third lookup. *)
Definition failed_attempts (u p : string) : list (list event) :=
  [[FindElement username_field];
   [FindElement username_field; SendKeys username_field u;
    FindElement password_field];
   [FindElement username_field; SendKeys username_field u;
    FindElement password_field; SendKeys password_field p;
    FindElement submit_button]].

(** What [get_csv_list] makes of the output folder. *)
Definition scanned (w : world) : list string :=
  (λ sub, Str.replace sub ".csv" "") <$>
    ((λ sub, Str.replace sub (cwd w +:+ backslash) "") <$>
       glob_csv (cwd w +:+ "/*.csv") w).

(** The current folder is one whose tables [glob] lists under their own
    names: below the root of a drive, and with no character in its path
    that [glob] reads as a pattern. *)
Definition plain_folder (w : world) : Prop :=
  below_drive_root (cwd w) = true ∧ has_magic (cwd w) = false.

(** The list the driver loops over, given the feeder IDs. *)
Definition csvs_missing_of (feeder_id_list : list string) (w : world) : list string :=
  merge_sort (by_rank (str_rank w))
    (elements (list_to_set feeder_id_list ∖ list_to_set (scanned w) : gset string)).

(** The URL [process_zip] sends the browser to for feeder [id]. *)
Definition archive_url (id : string) : string := data_url +:+ id +:+ ".zip".

(** ** A concrete setting: two feeders, one corrupt archive *)

(** The parameters filled in. *)
Definition sample_config : config :=
  Config "C:/ica/feeders.shp" "C:/dl/" "C:/out" "user" "secret" true 20.

Definition sample_table : table := [["hour"; "kW"]; ["1"; "250"]].

Definition login_page : list (locator * nat) :=
  [(username_field, 0); (password_field, 0); (submit_button, 0)].

(** The portal serves a corrupt archive for feeder A at once and a good
    one for feeder B after three seconds; nothing for any other feeder. *)
Definition sample_portal : gmap string download :=
  {[ archive_url "A" := Download "A.zip" 0 CorruptZip;
     archive_url "B" := Download "B.zip" 3 (Zip {[ "B.csv" := sample_table ]}) ]}.

(** An order of iteration that puts [first] first. *)
Definition rank_first (first : string) (s : string) : nat :=
  if decide (s = first) then 0 else 1.

(** A fresh start: both folders empty, the login page loaded, the feeder
    file listing [ids]; sets iterate with [first] first. *)
Definition fresh_world (ids : list string) (first : string) : world :=
  World {[ "C:/ica/feeders.shp" := Some ids ]} sample_portal [] login_page []
        ∅ ∅ ("C:" +:+ backslash +:+ "out") {[ "C:/out" ]} (λ _ _, [])
        (rank_first first) [].

(** The same with tables already in the output folder. *)
Definition stocked_world (ids : list string) (tables : gmap string table) : world :=
  set_output_folder tables (fresh_world ids "A").

(** A portal with a good archive for each of the feeders A, B and C, the
    last two taking a few seconds. *)
Definition healthy_portal : gmap string download :=
  {[ archive_url "A" := Download "A.zip" 0 (Zip {[ "A.csv" := sample_table ]});
     archive_url "B" := Download "B.zip" 3 (Zip {[ "B.csv" := sample_table ]});
     archive_url "C" := Download "C.zip" 5 (Zip {[ "C.csv" := sample_table ]}) ]}.

(** A fresh start against the healthy portal. *)
Definition healthy_world (ids : list string) : world :=
  World {[ "C:/ica/feeders.shp" := Some ids ]} healthy_portal [] login_page []
        ∅ ∅ ("C:" +:+ backslash +:+ "out") {[ "C:/out" ]} (λ _ _, [])
        (rank_first "A") [].

(** The navigations among [events]. *)
Definition is_get (e : event) : bool :=
  match e with Get _ => true | _ => false end.

Definition gets (events : list event) : list event :=
  filter (λ e, is_get e = true) events.

(** The event is the final list being printed. *)
Definition is_print_list (e : event) : bool :=
  match e with PrintList _ => true | _ => false end.

(** A computation [raises_within] a class of exceptions when no other
    exception leaves it. *)
Definition raises_within {A} (E : exn → Prop) (m : M A) : Prop :=
  ∀ w e, (m w).1 = Raised e → E e.

(** What a navigation that finds the window gone leaves in the trace of
    the first loop of [process_zip]. *)
Definition failed_navigation (url : string) : list event :=
  [Get url; Print "no such window..."; Sleep 1].

(** The output folder has kept its files, possibly rewritten, and may
    have more; its name and the order of sets are the same, and so is
    what [glob] finds elsewhere. *)
Definition output_grows : relation world :=
  λ w w', dom (output_folder w) ⊆ dom (output_folder w') ∧ cwd w' = cwd w
          ∧ str_rank w' = str_rank w
          ∧ glob_elsewhere w' = glob_elsewhere w.

(** What the driver does for one feeder. *)
Definition driver_step (cfg : config) (fuel : nat) (id : string) : M unit :=
  print id ;; process_zip cfg fuel data_url id.

(** The file name of a feeder's table is one the inventory reads back as
    the feeder: [*.csv] matches it, the folder prefix is nowhere in it, and
    the stem has no [.csv] inside. *)
Definition plain_stem (w : world) (id : string) : Prop :=
  Str.contains ".csv" id = false ∧
  Str.startswith "." (id +:+ ".csv") = false ∧
  Str.contains (cwd w +:+ backslash) (id +:+ ".csv") = false.

(** The seconds of sleep among [events]. *)
Definition sleep_secs (e : event) : nat :=
  match e with Sleep secs => secs | _ => 0 end.

Definition slept (events : list event) : nat := sum_list_with sleep_secs events.

(** From the first world to the second the script has slept at most [n]
    seconds. *)
Definition sleeps_within (n : nat) : relation world :=
  λ w w', ∃ events, trace w' = trace w ++ events ∧ slept events ≤ n.

(** The transfers in flight that will be saved under [name], in the
    order they were started. *)
Definition pending (name : string) (w : world) : list download :=
  filter (λ d, dl_name d = name) (in_flight w).

(** Seconds until the element is in the DOM, if the page has it. *)
Definition appears (loc : locator) (w : world) : option nat :=
  (λ e, e.2.2) <$> list_find (λ e, e.1 = loc) (page w).

(** A pass of the loop of [login] that types the username and then
    finds no password field, with the sleep that follows. *)
Definition username_only (u : string) : list event :=
  [FindElement username_field; SendKeys username_field u;
   FindElement password_field; Sleep 2].

(** A fresh start against a portal whose good archive for feeder B takes
    [secs] seconds to arrive. *)
Definition slow_world (secs : nat) : world :=
  World {[ "C:/ica/feeders.shp" := Some ["B"] ]}
        {[ archive_url "B" := Download "B.zip" secs (Zip {[ "B.csv" := sample_table ]}) ]}
        [] login_page [] ∅ ∅ ("C:" +:+ backslash +:+ "out") {[ "C:/out" ]} (λ _ _, [])
        (rank_first "B") [].

(** A fresh start on a machine where the output folder has not been
    made. *)
Definition unprepared_world : world :=
  World {[ "C:/ica/feeders.shp" := Some ["A"; "B"] ]} sample_portal [] login_page []
        ∅ ∅ ("C:" +:+ backslash +:+ "out") ∅ (λ _ _, []) (rank_first "A") [].

(** A fresh start with a login page whose password field and button
    take [secs] seconds to load. *)
Definition loading_world (secs : nat) : world :=
  set_page [(username_field, 0); (password_field, secs); (submit_button, secs)]
    (fresh_world ["A"; "B"] "A").

(** * Lemmas and theorems *)

Example replace_all_occurrences :
  Str.replace "a.csv.csv" ".csv" "" = "a".
Proof. reflexivity. Qed.

Example replace_empty_old : Str.replace "ab" "" "-" = "-a-b-".
Proof. reflexivity. Qed.

Example lower_mixed : Str.lower "Ab.CSV" = "ab.csv".
Proof. reflexivity. Qed.

(** ** Facts about the string methods *)

Section StrFacts.

Lemma str_app_nil_l (s : string) : "" +:+ s = s.
Proof. reflexivity. Qed.

Lemma str_app_cons (c : ascii) (a s : string) :
  String c a +:+ s = String c (a +:+ s).
Proof. reflexivity. Qed.

Lemma str_app_nil_r (s : string) : s +:+ "" = s.
Proof. induction s as [|c s IH]; [done|]. by rewrite str_app_cons, IH. Qed.

Lemma str_app_assoc (a b c : string) : (a +:+ b) +:+ c = a +:+ b +:+ c.
Proof. induction a as [|x a IH]; [done|]. by rewrite !str_app_cons, IH. Qed.

Lemma str_length_app (a b : string) :
  String.length (a +:+ b) = (String.length a + String.length b)%nat.
Proof. induction a as [|x a IH]; [done|]. rewrite str_app_cons. simpl. by rewrite IH. Qed.

Lemma startswith_app (p s : string) : Str.startswith p (p +:+ s) = true.
Proof.
  induction p as [|c p IH]; [done|].
  rewrite str_app_cons. simpl. by rewrite Ascii.eqb_refl.
Qed.

(** Two strings that end in suffixes of the same length are equal only
    when the suffixes are. *)
Lemma app_eq_suffix (a b s t : string) :
  String.length s = String.length t → a +:+ s = b +:+ t → a = b ∧ s = t.
Proof.
  revert b. induction a as [|x a IH]; intros [|y b] Hlen Heq.
  - done.
  - rewrite str_app_nil_l in Heq. subst s.
    rewrite str_length_app in Hlen. simpl in Hlen. lia.
  - rewrite str_app_nil_l in Heq. subst t.
    rewrite str_length_app in Hlen. simpl in Hlen. lia.
  - rewrite !str_app_cons in Heq. injection Heq as -> Heq.
    destruct (IH b Hlen Heq) as [-> ->]. done.
Qed.

Lemma strip_prefix_app (p s : string) : Str.strip_prefix p (p +:+ s) = Some s.
Proof.
  induction p as [|c p IH]; [done|]. rewrite str_app_cons. simpl.
  by rewrite decide_True.
Qed.

Lemma replace_from_skip (o rest old new : string) :
  Str.replace_from (String.length o) old new (o +:+ rest)
  = Str.replace_from 0 old new rest.
Proof. induction o as [|c o IH]; [done|]. rewrite str_app_cons. simpl. apply IH. Qed.

(** An occurrence at the very start is replaced and the scan resumes
    right after it. *)
Lemma replace_from_hit (old new rest : string) :
  old ≠ "" →
  Str.replace_from 0 old new (old +:+ rest)
  = new +:+ Str.replace_from 0 old new rest.
Proof.
  intros Hne. destruct old as [|c o]; [done|].
  pose proof (startswith_app (String c o) rest) as Hp.
  rewrite str_app_cons in Hp |- *. cbn [Str.replace_from]. rewrite Hp.
  f_equal. replace (String.length (String c o) - 1)%nat with (String.length o)
    by (simpl; lia).
  apply replace_from_skip.
Qed.

(** Without an occurrence the scan copies the string. *)
Lemma replace_from_absent (old new s : string) :
  Str.contains old s = false → Str.replace_from 0 old new s = s.
Proof.
  induction s as [|c s IH]; [done|]. simpl.
  intros [Hp Hc]%orb_false_iff. rewrite Hp. f_equal. auto.
Qed.

Lemma replace_prefix (old rest : string) :
  old ≠ "" → Str.contains old rest = false →
  Str.replace (old +:+ rest) old "" = rest.
Proof.
  intros Hne Habs. unfold Str.replace. destruct old as [|c o] eqn:E; [done|].
  rewrite <- E in *. rewrite replace_from_hit by (by subst).
  rewrite str_app_nil_l. by apply replace_from_absent.
Qed.

End StrFacts.

Example invert_True : invert true = (-2)%Z.
Proof. reflexivity. Qed.

Example invert_False : invert false = (-1)%Z.
Proof. reflexivity. Qed.

Global Instance event_eq_dec : EqDecision event.
Proof. solve_decision. Defined.

(** ** Reasoning about computations *)

Lemma bind_run {A B} (m : M A) (f : A → M B) (w : world) :
  (m ≫= f) w =
  match m w with
  | (Returned a, w') => f a w'
  | (Raised e, w') => (Raised e, w')
  | (OutOfFuel, w') => (OutOfFuel, w')
  end.
Proof. reflexivity. Qed.

Lemma while_unfold {L} (fuel : nat) (cond : L → bool) (body : L → M (flow * L))
    (l : L) :
  while fuel cond body l =
  if cond l then
    match fuel with
    | O => λ w, (OutOfFuel, w)
    | S fuel' =>
        r ← body l;
        match r with
        | (Break, l') => mret l'
        | (Next, l') => while fuel' cond body l'
        end
    end
  else mret l.
Proof. by destruct fuel. Qed.

Section Preserves.

Context (R : relation world) `{!PreOrder R}.

Lemma preserves_ret {A} (a : A) : preserves R (mret a).
Proof. intros w. simpl. reflexivity. Qed.

Lemma preserves_raise {A} (e : exn) : preserves R (@raise A e).
Proof. intros w. simpl. reflexivity. Qed.

Lemma preserves_bind {A B} (m : M A) (f : A → M B) :
  preserves R m → (∀ a, preserves R (f a)) → preserves R (m ≫= f).
Proof.
  intros Hm Hf w. rewrite bind_run. specialize (Hm w).
  destruct (m w) as [[a| |] w']; simpl in *; [|done..].
  etrans; [exact Hm|apply Hf].
Qed.

Lemma preserves_try_except {A} (body : M A) (handler : exn → option (M A)) :
  preserves R body →
  (∀ e h, handler e = Some h → preserves R h) →
  preserves R (try_except body handler).
Proof.
  intros Hb Hh w. unfold try_except. specialize (Hb w).
  destruct (body w) as [[a|e|] w']; simpl in *; [done| |done].
  destruct (handler e) as [h|] eqn:E; [|done].
  etrans; [exact Hb|by apply (Hh e)].
Qed.

Lemma preserves_while {L} (fuel : nat) (cond : L → bool)
    (body : L → M (flow * L)) (l : L) :
  (∀ l, preserves R (body l)) → preserves R (while fuel cond body l).
Proof.
  intros Hb. revert l. induction fuel as [|fuel IH]; intros l;
    rewrite while_unfold; destruct (cond l).
  - intros w. simpl. reflexivity.
  - apply preserves_ret.
  - apply preserves_bind; [apply Hb|]. intros [[] l']; [apply IH|apply preserves_ret].
  - apply preserves_ret.
Qed.

Lemma preserves_for_each {A} (xs : list A) (body : A → M unit) :
  (∀ x, x ∈ xs → preserves R (body x)) → preserves R (for_each xs body).
Proof.
  induction xs as [|x xs IH]; intros Hb; simpl.
  - apply preserves_ret.
  - apply preserves_bind; [apply Hb; by left|].
    intros _. apply IH. intros y Hy. apply Hb. by right.
Qed.

End Preserves.

(** ** What leaves the output folder alone *)

Global Instance same_output_preorder : PreOrder same_output.
Proof.
  split.
  - by intros w.
  - intros w1 w2 w3 (H1 & H1' & H1'' & H1''') (H2 & H2' & H2'' & H2''').
    repeat split; congruence.
Qed.

Lemma landings_same_output (due : list download) (w : world) :
  same_output w (foldl (λ w d, land d w) w due).
Proof.
  revert w. induction due as [|d due IH]; intros w; simpl; [done|].
  etrans; [|apply IH]. done.
Qed.

Lemma tick_same_output (secs : nat) (w : world) : same_output w (tick secs w).
Proof. unfold tick. etrans; [|apply landings_same_output]. done. Qed.

Lemma landings_trace (due : list download) (w : world) :
  trace (foldl (λ w d, land d w) w due) = trace w.
Proof.
  revert w. induction due as [|d due IH]; intros w; simpl; [done|].
  by rewrite IH.
Qed.

Lemma tick_trace (secs : nat) (w : world) : trace (tick secs w) = trace w.
Proof. unfold tick. by rewrite landings_trace. Qed.

Section LibraryFrames.

Context (cfg : config).

Lemma print_same_output line : preserves same_output (print line).
Proof. by intros w. Qed.

Lemma print_list_same_output items : preserves same_output (print_list items).
Proof. by intros w. Qed.

Lemma time_sleep_same_output secs : preserves same_output (time_sleep secs).
Proof. intros w. simpl. etrans; [|apply tick_same_output]. done. Qed.

Lemma driver_get_same_output url : preserves same_output (driver_get url).
Proof.
  intros w. unfold driver_get. simpl.
  destruct (window_faults w) as [|[] faults]; simpl;
    destruct (portal w !! url) as [d|]; simpl; try done;
    destruct (decide (dl_delay d = 0)); done.
Qed.

Lemma find_element_same_output loc : preserves same_output (find_element loc).
Proof.
  intros w. unfold find_element. simpl.
  destruct (in_dom _ _); done.
Qed.

Lemma send_keys_same_output e keys : preserves same_output (send_keys e keys).
Proof. by intros w. Qed.

Lemma click_same_output e : preserves same_output (click e).
Proof. by intros w. Qed.

Lemma ZipFile_same_output path : preserves same_output (ZipFile cfg path).
Proof.
  intros w. unfold ZipFile.
  destruct (in_download_dir _ _ _) as [[? []]|]; done.
Qed.

Lemma read_csv_member_same_output zf name :
  preserves same_output (read_csv_member zf name).
Proof. intros w. unfold read_csv_member. destruct (zf !! name); done. Qed.

Lemma os_remove_same_output path : preserves same_output (os_remove cfg path).
Proof.
  intros w. unfold os_remove.
  destruct (in_download_dir _ _ _) as [[? ?]|]; done.
Qed.

Lemma launch_chrome_same_output : preserves same_output launch_chrome.
Proof. by intros w. Qed.

End LibraryFrames.

Create HintDb frame discriminated.

#[export] Hint Resolve print_same_output print_list_same_output
  time_sleep_same_output driver_get_same_output find_element_same_output
  send_keys_same_output click_same_output ZipFile_same_output
  read_csv_member_same_output os_remove_same_output
  launch_chrome_same_output : frame.

(** Goes through a computation built from binds, handlers and loops and
    leaves the library calls to the hints. *)
Ltac frame :=
  repeat first
    [ apply preserves_ret
    | apply preserves_raise
    | apply preserves_bind
    | apply preserves_try_except
    | apply preserves_while
    | solve [eauto with frame]
    | match goal with
      | |- PreOrder _ => apply _
      | |- ∀ e h, _ = Some h → preserves _ h => intros [] ? [= <-]
      | |- ∀ _, preserves _ _ => intros ?
      | |- preserves _ (let '(_, _) := ?p in _) => destruct p
      | |- preserves _ (if ?b then _ else _) => destruct b
      | |- preserves _ (match ?o with Some _ => _ | None => _ end) => destruct o
      end ].

Section WorkerFrames.

Context (cfg : config).

Lemma fetch_same_output fuel data_url id :
  preserves same_output (fetch cfg fuel data_url id).
Proof. unfold fetch, fetch_loop, fetch_body. frame. Qed.

Lemma extract_same_output fuel id :
  preserves same_output (extract cfg fuel id).
Proof. unfold extract, extract_loop, extract_body. frame. Qed.

Lemma cleanup_same_output fuel id badzip :
  preserves same_output (cleanup cfg fuel id badzip).
Proof. unfold cleanup, cleanup_loop, cleanup_body. frame. Qed.

Lemma login_same_output fuel url u p :
  preserves same_output (login cfg fuel url u p).
Proof. unfold login, login_loop, login_body. frame. Qed.

End WorkerFrames.

(** ** The second loop of [process_zip], one pass at a time *)

Section Extract.

Context (cfg : config).

Lemma in_download_dir_log path e w :
in_download_dir cfg path (log e w) = in_download_dir cfg path w.
Proof. reflexivity. Qed.

Lemma in_download_dir_zip_path id w :
in_download_dir cfg (zip_path cfg id) w
= (λ a, (id +:+ ".zip", a)) <$> download_folder w !! (id +:+ ".zip").
Proof.
  unfold in_download_dir, zip_path. rewrite strip_prefix_app. simpl.
  by destruct (download_folder w !! _).
Qed.

(** The archive is not there: the counter goes up, the script sleeps two
  seconds, and the loop goes on. *)
Lemma extract_body_missing id i badzip df w :
download_folder w !! (id +:+ ".zip") = None →
extract_body cfg id (i, badzip, df) w
= (Returned (Next, ((i + 1)%Z, badzip, df)),
   tick 2 (log (Sleep 2) (log (ZipOpen (zip_path cfg id))
                            (log (Print ("trying " +:+ id)) w)))).
Proof.
  intros H. unfold extract_body, try_except. rewrite bind_run. simpl.
  rewrite bind_run. unfold ZipFile. rewrite !in_download_dir_log.
  fold (zip_path cfg id). rewrite in_download_dir_zip_path, H. reflexivity.
Qed.

(** The archive is corrupt: the counter jumps to [tries] and the flag is
  set, without a sleep. *)
Lemma extract_body_corrupt id i badzip df w :
download_folder w !! (id +:+ ".zip") = Some CorruptZip →
extract_body cfg id (i, badzip, df) w
= (Returned (Next, (tries cfg, true, df)),
   log (ZipOpen (zip_path cfg id)) (log (Print ("trying " +:+ id)) w)).
Proof.
  intros H. unfold extract_body, try_except. rewrite bind_run. simpl.
  rewrite bind_run. unfold ZipFile. rewrite !in_download_dir_log.
  fold (zip_path cfg id). rewrite in_download_dir_zip_path, H. reflexivity.
Qed.

(** The archive opens: the table is bound and the loop is left, unless
  the archive has no member [<id>.csv]. *)
Lemma extract_body_zip id i badzip df w members :
download_folder w !! (id +:+ ".zip") = Some (Zip members) →
extract_body cfg id (i, badzip, df) w
= let w' := log (Print ("opened " +:+ id))
              (log (ZipOpen (zip_path cfg id))
                 (log (Print ("trying " +:+ id)) w)) in
  match members !! (id +:+ ".csv") with
  | Some t => (Returned (Break, (i, badzip, Some t)), w')
  | None => (Raised (KeyError (id +:+ ".csv")), w')
  end.
Proof.
  intros H. unfold extract_body, try_except. rewrite bind_run. simpl.
  rewrite bind_run. unfold ZipFile. rewrite !in_download_dir_log.
  fold (zip_path cfg id). rewrite in_download_dir_zip_path, H. simpl.
  rewrite bind_run. simpl. rewrite bind_run. unfold read_csv_member.
  destruct (members !! _); reflexivity.
Qed.

Lemma extract_loop_unfold fuel id l :
extract_loop cfg fuel id l =
if (l.1.1 <? tries cfg)%Z then
  match fuel with
  | O => λ w, (OutOfFuel, w)
  | S fuel' =>
      r ← extract_body cfg id l;
      match r with
      | (Break, l') => mret l'
      | (Next, l') => extract_loop cfg fuel' id l'
      end
  end
else mret l.
Proof. unfold extract_loop. by rewrite while_unfold at 1. Qed.

(** When the loop ends with a table bound, it ran at least once, the
  flag is as it was, and the archive the table came from is still in
  the download folder. *)
Lemma extract_loop_bound fuel id i0 b0 w i b t w' :
extract_loop cfg fuel id (i0, b0, None) w = (Returned (i, b, Some t), w') →
b = b0 ∧ fuel ≠ 0 ∧ (i0 < tries cfg)%Z ∧
∃ members, download_folder w' !! (id +:+ ".zip") = Some (Zip members)
           ∧ members !! (id +:+ ".csv") = Some t.
Proof.
  revert i0 b0 w. induction fuel as [|fuel IH]; intros i0 b0 w;
    rewrite extract_loop_unfold; cbn [fst];
    destruct (Z.ltb_spec i0 (tries cfg)) as [Hlt|Hge]; try done.
  rewrite bind_run.
  destruct (download_folder w !! (id +:+ ".zip")) as [[|members]|] eqn:E.
  - rewrite (extract_body_corrupt _ _ _ _ _ E).
    rewrite extract_loop_unfold. cbn [fst]. rewrite Z.ltb_irrefl. done.
  - rewrite (extract_body_zip _ _ _ _ _ _ E). simpl.
    destruct (members !! (id +:+ ".csv")) as [t'|] eqn:Em; [|done].
    intros [= <- <- <- <-]. repeat split; [done..|]. exists members. done.
  - rewrite (extract_body_missing _ _ _ _ _ E). intros H.
    apply IH in H as (-> & _ & _ & H). repeat split; [done..|lia|done].
Qed.

(** When the loop ends with the flag clear and no table, every pass was
  a file-not-found, there were as many as the counter had left, and
  the loop was given at least that many iterations. *)
Lemma extract_loop_exhausted fuel id i0 b0 w i w' :
extract_loop cfg fuel id (i0, b0, None) w = (Returned (i, false, None), w') →
b0 = false ∧ Z.to_nat (tries cfg - i0) ≤ fuel ∧
trace w' = trace w ++ concat (replicate (Z.to_nat (tries cfg - i0)) (missing_attempt cfg id)).
Proof.
  revert i0 b0 w. induction fuel as [|fuel IH]; intros i0 b0 w;
    rewrite extract_loop_unfold; cbn [fst];
    destruct (Z.ltb_spec i0 (tries cfg)) as [Hlt|Hge]; try done.
  - intros [= <- <- <-]. replace (Z.to_nat (tries cfg - i0)) with 0 by lia.
    split; [done|]. split; [lia|]. simpl. by rewrite app_nil_r.
  - rewrite bind_run.
    destruct (download_folder w !! (id +:+ ".zip")) as [[|members]|] eqn:E.
    + rewrite (extract_body_corrupt _ _ _ _ _ E).
      rewrite extract_loop_unfold. cbn [fst]. rewrite Z.ltb_irrefl. done.
    + rewrite (extract_body_zip _ _ _ _ _ _ E). simpl.
      destruct (members !! (id +:+ ".csv")); done.
    + rewrite (extract_body_missing _ _ _ _ _ E). intros H.
      apply IH in H as (-> & Hle & Ht). split; [done|]. split; [lia|].
      rewrite Ht, tick_trace. simpl.
      replace (Z.to_nat (tries cfg - i0)) with (S (Z.to_nat (tries cfg - (i0 + 1)))) by lia.
      simpl. by rewrite <- !(assoc_L (++)).
  - intros [= <- <- <-]. replace (Z.to_nat (tries cfg - i0)) with 0 by lia.
    split; [done|]. split; [lia|]. simpl. by rewrite app_nil_r.
Qed.

(** The flag is only ever set with no table bound. *)
Lemma extract_flag_unbound fuel id w i df w' :
extract cfg fuel id w = (Returned (i, true, df), w') → df = None.
Proof.
  unfold extract. intros H. destruct df as [t|]; [|done].
  by apply extract_loop_bound in H as [? _].
Qed.

End Extract.

(** ** The trace only grows *)

Global Instance grows_by_preorder (P : event → Prop) : PreOrder (grows_by P).
Proof.
  split.
  - intros w. exists []. by rewrite app_nil_r.
  - intros w1 w2 w3 (e1 & H1 & F1) (e2 & H2 & F2). exists (e1 ++ e2).
    split; [|by apply Forall_app]. by rewrite H2, H1, <- (assoc_L (++)).
Qed.

Lemma grows_by_log (P : event → Prop) e w : P e → grows_by P w (log e w).
Proof. intros He. exists [e]. split; [done|]. by apply Forall_singleton. Qed.

Lemma grows_by_same_trace (P : event → Prop) w w' :
  trace w' = trace w → grows_by P w w'.
Proof. intros H. exists []. by rewrite app_nil_r. Qed.

Section LibraryTraces.

Context (cfg : config) (P : event → Prop).

Lemma print_grows line : P (Print line) → preserves (grows_by P) (print line).
Proof. intros H w. by apply grows_by_log. Qed.

Lemma print_list_grows items :
  P (PrintList items) → preserves (grows_by P) (print_list items).
Proof. intros H w. by apply grows_by_log. Qed.

Lemma time_sleep_grows secs :
  P (Sleep secs) → preserves (grows_by P) (time_sleep secs).
Proof.
  intros H w. simpl. etrans; [by apply grows_by_log|].
  apply grows_by_same_trace, tick_trace.
Qed.

Lemma driver_get_grows url : P (Get url) → preserves (grows_by P) (driver_get url).
Proof.
  intros H w. unfold driver_get. simpl.
  etrans; [by apply (grows_by_log P (Get url))|].
  apply grows_by_same_trace.
  destruct (window_faults w) as [|[] faults]; simpl;
    destruct (portal w !! url) as [d|]; simpl; try done;
    destruct (decide (dl_delay d = 0)); done.
Qed.

Lemma find_element_grows loc :
  P (FindElement loc) → preserves (grows_by P) (find_element loc).
Proof.
  intros H w. unfold find_element. simpl.
  destruct (in_dom _ _); by apply grows_by_log.
Qed.

Lemma send_keys_grows e keys :
  P (SendKeys e keys) → preserves (grows_by P) (send_keys e keys).
Proof. intros H w. by apply grows_by_log. Qed.

Lemma click_grows e : P (Click e) → preserves (grows_by P) (click e).
Proof. intros H w. by apply grows_by_log. Qed.

Lemma ZipFile_grows path : P (ZipOpen path) → preserves (grows_by P) (ZipFile cfg path).
Proof.
  intros H w. unfold ZipFile.
  destruct (in_download_dir _ _ _) as [[? []]|]; by apply grows_by_log.
Qed.

Lemma read_csv_member_grows zf name :
  preserves (grows_by P) (read_csv_member zf name).
Proof. intros w. unfold read_csv_member. destruct (zf !! name); simpl; reflexivity. Qed.

Lemma os_remove_grows path : P (Remove path) → preserves (grows_by P) (os_remove cfg path).
Proof.
  intros H w. unfold os_remove.
  destruct (in_download_dir _ _ _) as [[? ?]|]; by apply grows_by_log.
Qed.

Lemma to_csv_grows df path : P (ToCsv path) → preserves (grows_by P) (to_csv df path).
Proof. intros H w. by apply grows_by_log. Qed.

Lemma launch_chrome_grows : P LaunchChrome → preserves (grows_by P) launch_chrome.
Proof. intros H w. by apply grows_by_log. Qed.

Lemma os_getcwd_grows : preserves (grows_by P) os_getcwd.
Proof. intros w. simpl. reflexivity. Qed.

Lemma glob_glob_grows pattern : preserves (grows_by P) (glob_glob pattern).
Proof. intros w. unfold glob_glob. simpl. reflexivity. Qed.

Lemma list_of_set_grows s : preserves (grows_by P) (list_of_set s).
Proof. intros w. simpl. reflexivity. Qed.

End LibraryTraces.

#[export] Hint Resolve print_grows print_list_grows time_sleep_grows
  driver_get_grows find_element_grows send_keys_grows click_grows
  ZipFile_grows read_csv_member_grows os_remove_grows to_csv_grows
  launch_chrome_grows os_getcwd_grows glob_glob_grows list_of_set_grows : frame.

#[export] Hint Extern 1 (not_to_csv _) => exact I : frame.
#[export] Hint Extern 1 (gets_within _ _) => first [exact I | simpl; done] : frame.

(** ** Termination of the loops *)

(** [~badzip] is true in an [if] whatever [badzip] is. *)
Lemma truthy_invert (b : bool) : truthy (invert b) = true.
Proof. by destruct b. Qed.

(** A loop whose every pass either leaves, raises, or decreases a measure
    that is positive while the condition holds, finishes within as many
    iterations as the measure says. *)
Lemma while_finishes {L} (measure : L → nat) (cond : L → bool)
    (body : L → M (flow * L)) :
  (∀ l, cond l = true → 0 < measure l) →
  (∀ l w, cond l = true →
     match (body l w).1 with
     | Returned (Next, l') => measure l' < measure l
     | Returned (Break, _) | Raised _ => True
     | OutOfFuel => False
     end) →
  ∀ fuel l w, measure l ≤ fuel → (while fuel cond body l w).1 ≠ OutOfFuel.
Proof.
  intros Hpos Hdec fuel. induction fuel as [|fuel IH]; intros l w Hle;
    rewrite while_unfold; destruct (cond l) eqn:Hc; try done.
  - specialize (Hpos l Hc). lia.
  - rewrite bind_run. specialize (Hdec l w Hc).
    destruct (body l w) as [[[[] l']| |] w']; simpl in *; try done.
    apply IH. lia.
Qed.

Section Counters.

Context (cfg : config).

Lemma iterations_left_pos i : (i <? tries cfg)%Z = true → 0 < iterations_left cfg i.
Proof. unfold iterations_left. intros ?%Z.ltb_lt. lia. Qed.

Lemma iterations_left_succ i :
  (i <? tries cfg)%Z = true → iterations_left cfg (i + 1) < iterations_left cfg i.
Proof. unfold iterations_left. intros ?%Z.ltb_lt. lia. Qed.

Lemma fetch_body_advances data_url id i w :
  match (fetch_body data_url id i w).1 with
  | Returned (Next, i') => i' = (i + 1)%Z
  | Returned (Break, _) | Raised _ => True
  | OutOfFuel => False
  end.
Proof.
  unfold fetch_body, try_except. rewrite bind_run. unfold driver_get.
  destruct (window_faults _) as [|[] ?]; simpl; done.
Qed.

Lemma extract_body_advances id l w :
  match (extract_body cfg id l w).1 with
  | Returned (Next, l') => l'.1.1 = (l.1.1 + 1)%Z ∨ l'.1.1 = tries cfg
  | Returned (Break, _) | Raised _ => True
  | OutOfFuel => False
  end.
Proof.
  destruct l as [[i b] df].
  destruct (download_folder w !! (id +:+ ".zip")) as [[|members]|] eqn:E.
  - rewrite (extract_body_corrupt _ _ _ _ _ _ E). simpl. by right.
  - rewrite (extract_body_zip _ _ _ _ _ _ _ E). simpl.
    by destruct (members !! _).
  - rewrite (extract_body_missing _ _ _ _ _ _ E). simpl. by left.
Qed.

(** The archive is there: it is deleted and the loop is left. *)
Lemma cleanup_body_present id badzip i w a :
  download_folder w !! (id +:+ ".zip") = Some a →
  cleanup_body cfg id badzip i w
  = (Returned (Break, i),
     log (Print ("deleted " +:+ id))
       (set_download_folder (delete (id +:+ ".zip") (download_folder w))
          (log (Remove (zip_path cfg id))
             (log (Print ("trying to delete " +:+ id)) w)))).
Proof.
  intros H. unfold cleanup_body, try_except. rewrite truthy_invert.
  rewrite bind_run. simpl. rewrite bind_run. unfold os_remove.
  rewrite !in_download_dir_log. fold (zip_path cfg id).
  rewrite in_download_dir_zip_path, H. reflexivity.
Qed.

(** The archive is not there: the counter goes up and the script sleeps
    two seconds. *)
Lemma cleanup_body_missing id badzip i w :
  download_folder w !! (id +:+ ".zip") = None →
  cleanup_body cfg id badzip i w
  = (Returned (Next, (i + 1)%Z),
     tick 2 (log (Sleep 2) (log (Remove (zip_path cfg id))
                              (log (Print ("trying to delete " +:+ id)) w)))).
Proof.
  intros H. unfold cleanup_body, try_except. rewrite truthy_invert.
  rewrite bind_run. simpl. rewrite bind_run. unfold os_remove.
  rewrite !in_download_dir_log. fold (zip_path cfg id).
  rewrite in_download_dir_zip_path, H. reflexivity.
Qed.

Lemma cleanup_body_advances id badzip i w :
  match (cleanup_body cfg id badzip i w).1 with
  | Returned (Next, i') => i' = (i + 1)%Z
  | Returned (Break, _) | Raised _ => True
  | OutOfFuel => False
  end.
Proof.
  destruct (download_folder w !! (id +:+ ".zip")) as [a|] eqn:E.
  - by rewrite (cleanup_body_present _ _ _ _ _ E).
  - by rewrite (cleanup_body_missing _ _ _ _ E).
Qed.

Lemma in_dom_log loc e w : in_dom loc (log e w) = in_dom loc w.
Proof. reflexivity. Qed.

(** One pass of the loop of [login]: with all three elements there the
    form is filled and submitted and the loop is left; otherwise the
    pass stops at the first missing element, the counter goes up and
    the script sleeps two seconds. *)
Lemma login_body_run u p i w :
  login_body u p i w =
  if attempt_succeeds w
  then (Returned (Break, i), logs (attempt_events u p w) w)
  else (Returned (Next, (i + 1)%Z),
        tick 2 (log (Sleep 2) (logs (attempt_events u p w) w))).
Proof.
  unfold login_body, try_except, attempt_succeeds, attempt_events.
  fold username_field password_field submit_button.
  rewrite bind_run. unfold find_element at 1. rewrite in_dom_log.
  destruct (in_dom username_field w); [|done].
  rewrite bind_run. simpl. rewrite bind_run. unfold find_element at 1.
  rewrite !in_dom_log.
  destruct (in_dom password_field w); [|done].
  rewrite bind_run. simpl. rewrite bind_run. unfold find_element at 1.
  rewrite !in_dom_log.
  destruct (in_dom submit_button w); done.
Qed.

Lemma login_body_advances u p i w :
  match (login_body u p i w).1 with
  | Returned (Next, i') => i' = (i + 1)%Z
  | Returned (Break, _) | Raised _ => True
  | OutOfFuel => False
  end.
Proof. rewrite login_body_run. by destruct (attempt_succeeds w). Qed.

Lemma fetch_loop_finishes fuel data_url id i w :
  iterations_left cfg i ≤ fuel → (fetch_loop cfg fuel data_url id i w).1 ≠ OutOfFuel.
Proof.
  apply (while_finishes (iterations_left cfg)); [apply iterations_left_pos|].
  intros l w' Hc. pose proof (fetch_body_advances data_url id l w') as H.
  destruct (fetch_body _ _ _ _).1 as [[[] ?]| |]; try done.
  subst. by apply iterations_left_succ.
Qed.

Lemma extract_loop_finishes fuel id l w :
  iterations_left cfg l.1.1 ≤ fuel → (extract_loop cfg fuel id l w).1 ≠ OutOfFuel.
Proof.
  apply (while_finishes (λ l, iterations_left cfg l.1.1));
    [intros ?; apply iterations_left_pos|].
  intros l' w' Hc. cbn beta. pose proof (extract_body_advances id l' w') as H.
  destruct (extract_body _ _ _ _).1 as [[[] l'']| |]; try done.
  destruct H as [-> | ->]; [by apply iterations_left_succ|].
  apply iterations_left_pos in Hc. unfold iterations_left in *. lia.
Qed.

Lemma cleanup_loop_finishes fuel id badzip i w :
  iterations_left cfg i ≤ fuel → (cleanup_loop cfg fuel id badzip i w).1 ≠ OutOfFuel.
Proof.
  apply (while_finishes (iterations_left cfg)); [apply iterations_left_pos|].
  intros l w' Hc. pose proof (cleanup_body_advances id badzip l w') as H.
  destruct (cleanup_body _ _ _ _ _).1 as [[[] ?]| |]; try done.
  subst. by apply iterations_left_succ.
Qed.

Lemma login_loop_finishes fuel u p i w :
  iterations_left cfg i ≤ fuel → (login_loop cfg fuel u p i w).1 ≠ OutOfFuel.
Proof.
  apply (while_finishes (iterations_left cfg)); [apply iterations_left_pos|].
  intros l w' Hc. pose proof (login_body_advances u p l w') as H.
  destruct (login_body _ _ _ _).1 as [[[] ?]| |]; try done.
  subst. by apply iterations_left_succ.
Qed.

End Counters.

(** ** The worker, phase by phase *)

Section Worker.

Context (cfg : config).

Lemma cleanup_loop_unfold fuel id badzip i :
cleanup_loop cfg fuel id badzip i =
if (i <? tries cfg)%Z then
  match fuel with
  | O => λ w, (OutOfFuel, w)
  | S fuel' =>
      r ← cleanup_body cfg id badzip i;
      match r with
      | (Break, i') => mret i'
      | (Next, i') => cleanup_loop cfg fuel' id badzip i'
      end
  end
else mret i.
Proof. unfold cleanup_loop. by rewrite while_unfold at 1. Qed.

(** The third loop neither raises nor needs more than the iterations the
  counter has left. *)
Lemma cleanup_loop_returns fuel id badzip i w :
iterations_left cfg i ≤ fuel →
∃ i' w', cleanup_loop cfg fuel id badzip i w = (Returned i', w').
Proof.
  revert i w. induction fuel as [|fuel IH]; intros i w Hle;
    rewrite cleanup_loop_unfold;
    destruct (i <? tries cfg)%Z eqn:Hc; try by eexists _, _.
  - apply iterations_left_pos in Hc. lia.
  - rewrite bind_run.
    destruct (download_folder w !! (id +:+ ".zip")) as [a|] eqn:E.
    + rewrite (cleanup_body_present _ _ _ _ _ _ E). by eexists _, _.
    + rewrite (cleanup_body_missing _ _ _ _ _ E). apply IH.
      apply iterations_left_succ in Hc. lia.
Qed.

(** With the flag set, [process_zip] goes through the third loop and then
  reads [df], which was never assigned. *)
Lemma process_zip_flagged fuel data_url id w i0 w1 i df w2 :
fetch cfg fuel data_url id w = (Returned i0, w1) →
extract cfg fuel id w1 = (Returned (i, true, df), w2) →
process_zip cfg fuel data_url id w
= match cleanup cfg fuel id true w2 with
  | (Returned _, w3) => (Raised (UnboundLocalError "df"), w3)
  | (Raised e, w3) => (Raised e, w3)
  | (OutOfFuel, w3) => (OutOfFuel, w3)
  end.
Proof.
  intros Hf He. pose proof (extract_flag_unbound _ _ _ _ _ _ _ He) as ->.
  unfold process_zip. rewrite bind_run, Hf, bind_run, He, bind_run.
  by destruct (cleanup cfg fuel id true w2) as [[| |] w3].
Qed.

End Worker.

(** C3. When the second loop of [process_zip] ends with the bad-archive
    flag set, the call writes no table: the output folder after the call
    is the output folder before it, and no [to_csv] is among the things
    the call did. *)
Theorem corrupt_archive_writes_nothing cfg fuel data_url id w i0 w1 i df w2 :
  fetch cfg fuel data_url id w = (Returned i0, w1) →
  extract cfg fuel id w1 = (Returned (i, true, df), w2) →
  let w' := (process_zip cfg fuel data_url id w).2 in
  output_folder w' = output_folder w ∧
  ∃ events, trace w' = trace w ++ events ∧ ∀ path, ToCsv path ∉ events.
Proof.
  intros Hf He w'. subst w'. rewrite (process_zip_flagged _ _ _ _ _ _ _ _ _ _ Hf He).
  assert (same_output w w2 ∧ grows_by not_to_csv w w2) as [Hs Hg].
  { pose proof (fetch_same_output cfg fuel data_url id w) as H1.
    pose proof (extract_same_output cfg fuel id w1) as H2.
    assert (preserves (grows_by not_to_csv) (fetch cfg fuel data_url id)) as H3
      by (unfold fetch, fetch_loop, fetch_body; frame).
    assert (preserves (grows_by not_to_csv) (extract cfg fuel id)) as H4
      by (unfold extract, extract_loop, extract_body; frame).
    specialize (H3 w). specialize (H4 w1). rewrite Hf in H1, H3. rewrite He in H2, H4.
    split; etrans; eauto. }
  pose proof (cleanup_same_output cfg fuel id true w2) as Hs'.
  assert (preserves (grows_by not_to_csv) (cleanup cfg fuel id true)) as Hg'
    by (unfold cleanup, cleanup_loop, cleanup_body; frame).
  specialize (Hg' w2).
  assert (same_output w (cleanup cfg fuel id true w2).2) as [Ho _]
    by (etrans; eauto).
  assert (grows_by not_to_csv w (cleanup cfg fuel id true w2).2)
    as (events & Ht & Hall) by (etrans; eauto).
  destruct (cleanup cfg fuel id true w2) as [[| |] w3]; simpl in *;
    (split; [done|]); exists events; (split; [done|]);
    intros path Hin; by apply (proj1 (Forall_forall _ _) Hall) in Hin.
Qed.

(** C5. When the first loop has run and the second has bound a table [t]
    read from the archive, [process_zip] returns, [<id>.csv] in the output
    folder holds [t], and the download folder has no [<id>.zip]. *)
Theorem successful_worker_saves_and_cleans cfg fuel data_url id w i0 w1 i b t w2 :
  fetch cfg fuel data_url id w = (Returned i0, w1) →
  extract cfg fuel id w1 = (Returned (i, b, Some t), w2) →
  ∃ w', process_zip cfg fuel data_url id w = (Returned tt, w') ∧
        output_folder w' !! (id +:+ ".csv") = Some t ∧
        download_folder w' !! (id +:+ ".zip") = None.
Proof.
  intros Hf He. unfold process_zip. rewrite bind_run, Hf, bind_run, He.
  apply extract_loop_bound in He as (-> & Hfuel & Htries & members & Hzip & _).
  destruct fuel as [|fuel]; [done|].
  rewrite bind_run. unfold cleanup. rewrite cleanup_loop_unfold.
  apply Z.ltb_lt in Htries. rewrite Htries, bind_run.
  rewrite (cleanup_body_present _ _ _ _ _ _ Hzip). simpl.
  eexists. split; [reflexivity|]. simpl. split.
  - apply lookup_insert_eq.
  - apply lookup_delete_eq.
Qed.

(** C10. When the second loop ends with neither a table nor the flag,
    every one of its [tries] passes failed to find the archive, and
    [process_zip] then raises the [NameError] for [df] (an
    [UnboundLocalError]) without having written to the output folder. *)
Theorem exhausted_extraction_raises_NameError cfg fuel data_url id w i0 w1 i w2 :
  fetch cfg fuel data_url id w = (Returned i0, w1) →
  extract cfg fuel id w1 = (Returned (i, false, None), w2) →
  trace w2 = trace w1 ++ concat (replicate (Z.to_nat (tries cfg)) (missing_attempt cfg id)) ∧
  ∃ e w', process_zip cfg fuel data_url id w = (Raised e, w') ∧
          e = UnboundLocalError "df" ∧ is_NameError e = true ∧
          output_folder w' = output_folder w.
Proof.
  intros Hf He.
  pose proof (fetch_same_output cfg fuel data_url id w) as H1.
  pose proof (extract_same_output cfg fuel id w1) as H2.
  pose proof (cleanup_same_output cfg fuel id false w2) as H3.
  rewrite Hf in H1. rewrite He in H2. simpl in H1, H2.
  unfold process_zip. rewrite bind_run, Hf, bind_run, He.
  apply extract_loop_exhausted in He as (_ & Hfuel & Ht).
  rewrite Z.sub_0_r in Hfuel, Ht. split; [done|].
  destruct (cleanup_loop_returns cfg fuel id false 0 w2) as (i' & w3 & Hc).
  { unfold iterations_left. by rewrite Z.sub_0_r. }
  rewrite bind_run. unfold cleanup in *. rewrite Hc in *. simpl in *.
  eexists _, _. split; [reflexivity|]. repeat split.
  destruct H1 as [H1 _], H2 as [H2 _], H3 as [H3 _]. congruence.
Qed.

(** C9. Each of the three loops of [process_zip] is through within
    [tries] iterations, whatever the world and whatever the flag: the
    test [~badzip] of the third loop is true for both values of
    [badzip], so each of its passes either leaves the loop or moves the
    counter up. *)
Theorem worker_loops_finish_within_tries cfg data_url id badzip i w :
  let fuel := Z.to_nat (tries cfg) in
  (fetch cfg fuel data_url id w).1 ≠ OutOfFuel ∧
  (extract cfg fuel id w).1 ≠ OutOfFuel ∧
  (cleanup cfg fuel id badzip w).1 ≠ OutOfFuel ∧
  truthy (invert true) = true ∧ truthy (invert false) = true ∧
  match (cleanup_body cfg id badzip i w).1 with
  | Returned (Next, i') => i' = (i + 1)%Z
  | Returned (Break, _) => True
  | _ => False
  end.
Proof.
  intros fuel. subst fuel.
  assert (iterations_left cfg 0 ≤ Z.to_nat (tries cfg)) as H0
    by (unfold iterations_left; by rewrite Z.sub_0_r).
  split; [by apply fetch_loop_finishes|].
  split; [by apply extract_loop_finishes|].
  split; [by apply cleanup_loop_finishes|].
  split; [done|]. split; [done|].
  destruct (download_folder w !! (id +:+ ".zip")) as [a|] eqn:E.
  - by rewrite (cleanup_body_present _ _ _ _ _ _ E).
  - by rewrite (cleanup_body_missing _ _ _ _ _ E).
Qed.

(** ** Counting the attempts to open the archive *)

Lemma zip_opens_app (a b : list event) : zip_opens (a ++ b) = zip_opens a + zip_opens b.
Proof. unfold zip_opens. by rewrite filter_app, length_app. Qed.

Lemma extract_loop_opens cfg fuel id l w :
  ∃ events, trace (extract_loop cfg fuel id l w).2 = trace w ++ events ∧
            zip_opens events ≤ iterations_left cfg l.1.1.
Proof.
  revert l w. induction fuel as [|fuel IH]; intros [[i b] df] w;
    rewrite extract_loop_unfold; cbn [fst];
    destruct (i <? tries cfg)%Z eqn:Hc;
    try (exists []; simpl; rewrite app_nil_r; split; [done|apply Nat.le_0_l]).
  pose proof (iterations_left_succ cfg i Hc) as Hlt.
  rewrite bind_run.
  destruct (download_folder w !! (id +:+ ".zip")) as [[|members]|] eqn:E.
  - rewrite (extract_body_corrupt _ _ _ _ _ _ E).
    rewrite extract_loop_unfold. cbn [fst]. rewrite Z.ltb_irrefl. simpl.
    rewrite <- (assoc_L (++)). eexists. split; [done|]. simpl.
    unfold zip_opens. simpl. lia.
  - rewrite (extract_body_zip _ _ _ _ _ _ _ E). simpl.
    destruct (members !! (id +:+ ".csv")); simpl;
      rewrite <- !(assoc_L (++)); (eexists; split; [done|]);
      unfold zip_opens; simpl; lia.
  - rewrite (extract_body_missing _ _ _ _ _ _ E).
    destruct (IH ((i + 1)%Z, b, df)
                (tick 2 (log (Sleep 2) (log (ZipOpen (zip_path cfg id))
                   (log (Print ("trying " +:+ id)) w))))) as (events & Ht & Hn).
    rewrite Ht, tick_trace. simpl. rewrite <- !(assoc_L (++)).
    eexists. split; [done|]. simpl in *.
    change (zip_opens (?a :: ?b :: ?c :: events)) with (zip_opens ([a; b; c] ++ events)).
    rewrite zip_opens_app. unfold zip_opens at 1. simpl. lia.
Qed.

(** C7. One pass of the second loop of [process_zip], with the counter
    below [tries]: a corrupt archive sets the flag and ends the loop at
    once, with one attempt to open and no sleep; a missing archive costs
    a two-second sleep and the loop goes on with the counter one up; an
    archive that opens ends the loop with its table bound.  In all, the
    loop tries to open the archive at most [tries] times. *)
Theorem extraction_retries_only_on_missing_file cfg fuel id i badzip df w :
  (i < tries cfg)%Z →
  let tried := log (ZipOpen (zip_path cfg id)) (log (Print ("trying " +:+ id)) w) in
  extract_loop cfg (S fuel) id (i, badzip, df) w
  = match download_folder w !! (id +:+ ".zip") with
    | Some CorruptZip => (Returned (tries cfg, true, df), tried)
    | None =>
        extract_loop cfg fuel id ((i + 1)%Z, badzip, df) (tick 2 (log (Sleep 2) tried))
    | Some (Zip members) =>
        match members !! (id +:+ ".csv") with
        | Some t => (Returned (i, badzip, Some t), log (Print ("opened " +:+ id)) tried)
        | None => (Raised (KeyError (id +:+ ".csv")), log (Print ("opened " +:+ id)) tried)
        end
    end
  ∧ ∃ events, trace (extract cfg (S fuel) id w).2 = trace w ++ events ∧
              zip_opens events ≤ Z.to_nat (tries cfg).
Proof.
  intros Hlt tried. subst tried. split.
  - rewrite extract_loop_unfold. cbn [fst]. apply Z.ltb_lt in Hlt. rewrite Hlt.
    rewrite bind_run.
    destruct (download_folder w !! (id +:+ ".zip")) as [[|members]|] eqn:E.
    + rewrite (extract_body_corrupt _ _ _ _ _ _ E).
      rewrite extract_loop_unfold. cbn [fst]. by rewrite Z.ltb_irrefl.
    + rewrite (extract_body_zip _ _ _ _ _ _ _ E). simpl.
      by destruct (members !! (id +:+ ".csv")).
    + by rewrite (extract_body_missing _ _ _ _ _ _ E).
  - destruct (extract_loop_opens cfg (S fuel) id (0%Z, false, None) w)
      as (events & Ht & Hn).
    exists events. split; [done|].
    unfold iterations_left in Hn. simpl in Hn. by rewrite Z.sub_0_r in Hn.
Qed.

(** ** The attempts of [login] *)

Lemma log_trace e w : trace (log e w) = trace w ++ [e].
Proof. reflexivity. Qed.

Lemma logs_trace events w : trace (logs events w) = trace w ++ events.
Proof.
  revert w. induction events as [|e events IH]; intros w; simpl.
  - by rewrite app_nil_r.
  - rewrite IH. simpl. by rewrite <- (assoc_L (++)).
Qed.

Lemma attempt_events_succeeds u p w :
  attempt_succeeds w = true → attempt_events u p w = filled_and_submitted u p.
Proof.
  unfold attempt_succeeds, attempt_events.
  by destruct (in_dom username_field w), (in_dom password_field w),
    (in_dom submit_button w).
Qed.

Lemma attempt_events_fails u p w :
  attempt_succeeds w = false → attempt_events u p w ∈ failed_attempts u p.
Proof.
  unfold attempt_succeeds, attempt_events, failed_attempts.
  destruct (in_dom username_field w), (in_dom password_field w),
    (in_dom submit_button w); simpl; intros; try done;
    repeat first [by left | right].
Qed.

Lemma login_loop_unfold cfg fuel u p i :
  login_loop cfg fuel u p i =
  if (i <? tries cfg)%Z then
    match fuel with
    | O => λ w, (OutOfFuel, w)
    | S fuel' =>
        r ← login_body u p i;
        match r with
        | (Break, i') => mret i'
        | (Next, i') => login_loop cfg fuel' u p i'
        end
    end
  else mret i.
Proof. unfold login_loop. by rewrite while_unfold at 1. Qed.

(** The trace a run of the loop of [login] adds: failed passes, each
    followed by its sleep, and then either a pass that submits the form or,
    after as many failed passes as the counter had left, nothing. *)
Lemma login_loop_attempts cfg fuel u p i w :
  iterations_left cfg i ≤ fuel →
  ∃ i' w' (failed : list (list event)) (final : list event),
    login_loop cfg fuel u p i w = (Returned i', w') ∧
    trace w' = trace w ++ concat ((λ a, a ++ [Sleep 2]) <$> failed) ++ final ∧
    Forall (λ a, a ∈ failed_attempts u p) failed ∧
    (final = filled_and_submitted u p ∧ length failed < iterations_left cfg i
     ∨ final = [] ∧ length failed = iterations_left cfg i).
Proof.
  revert i w. induction fuel as [|fuel IH]; intros i w Hle;
    rewrite login_loop_unfold;
    destruct (i <? tries cfg)%Z eqn:Hc.
  - apply iterations_left_pos in Hc. lia.
  - exists i, w, [], []. simpl. rewrite app_nil_r. repeat split; [done|].
    right. split; [done|]. apply Z.ltb_ge in Hc. unfold iterations_left. lia.
  - rewrite bind_run, login_body_run.
    pose proof (iterations_left_pos cfg i Hc) as Hpos.
    pose proof (iterations_left_succ cfg i Hc) as Hsucc.
    destruct (attempt_succeeds w) eqn:Hok.
    + exists i, (logs (attempt_events u p w) w), [], (filled_and_submitted u p).
      rewrite logs_trace, (attempt_events_succeeds _ _ _ Hok). simpl.
      repeat split; [done|]. by left.
    + destruct (IH (i + 1)%Z (tick 2 (log (Sleep 2) (logs (attempt_events u p w) w))))
        as (i' & w' & failed & final & Hrun & Ht & Hall & Hend); [lia|].
      exists i', w', (attempt_events u p w :: failed), final.
      cbv beta iota. rewrite Hrun. split; [done|]. split.
      { rewrite Ht, tick_trace, log_trace, logs_trace, fmap_cons.
        change (concat (?x :: ?l)) with (x ++ concat l).
        by rewrite <- !(assoc_L (++)). }
      split; [constructor; [by apply attempt_events_fails|done]|].
      assert (iterations_left cfg i = S (iterations_left cfg (i + 1))) as Heq
        by (apply Z.ltb_lt in Hc; unfold iterations_left; lia).
      cbn [length].
      destruct Hend as [[-> Hn]|[-> Hn]]; [left|right]; (split; [done|lia]).
  - exists i, w, [], []. simpl. rewrite app_nil_r. repeat split; [done|].
    right. split; [done|]. apply Z.ltb_ge in Hc. unfold iterations_left. lia.
Qed.

Lemma driver_get_trace url w : trace (driver_get url w).2 = trace w ++ [Get url].
Proof.
  unfold driver_get.
  destruct (window_faults (log (Get url) w)) as [|[] faults]; simpl; try done;
    destruct (portal w !! url) as [d|]; simpl; try done;
    destruct (decide (dl_delay d = 0)); done.
Qed.


(** ** Stripping the extension *)

Lemma startswith_csv_app (x : string) :
  x ≠ "" → Str.startswith ".csv" x = false →
  Str.startswith ".csv" (x +:+ ".csv") = false.
Proof.
  destruct x as [|c1 [|c2 [|c3 [|c4 x]]]]; [done|..]; intros _;
    rewrite ?str_app_cons, ?str_app_nil_l; simpl;
    repeat match goal with
           | |- context [Ascii.eqb ?a ?c] =>
               is_var c; destruct (Ascii.eqb_spec a c); [subst; simpl|done]
           end; done.
Qed.

(** A stem with no [.csv] inside comes back when [.csv] is appended and
    then replaced by nothing. *)
Lemma replace_csv_suffix (x : string) :
  Str.contains ".csv" x = false → Str.replace (x +:+ ".csv") ".csv" "" = x.
Proof.
  unfold Str.replace. induction x as [|c x IH]; [done|].
  cbn [Str.contains]. intros [Hp Hc]%orb_false_iff.
  pose proof (startswith_csv_app (String c x) ltac:(done) Hp) as Hp'.
  rewrite str_app_cons in Hp' |- *. cbn [Str.replace_from]. rewrite Hp'.
  f_equal. auto.
Qed.

Lemma lower_app (a b : string) : Str.lower (a +:+ b) = Str.lower a +:+ Str.lower b.
Proof. induction a as [|c a IH]; [done|]. rewrite str_app_cons. simpl. by rewrite IH. Qed.

Lemma endswith_app (suf a : string) : Str.endswith suf (a +:+ suf) = true.
Proof.
  induction a as [|c a IH].
  - rewrite str_app_nil_l. destruct suf; simpl; by rewrite ?Ascii.eqb_refl, ?String.eqb_refl.
  - rewrite str_app_cons. simpl. rewrite IH. apply orb_true_r.
Qed.

Lemma fnmatch_csv_stem (id : string) :
  Str.startswith "." (id +:+ ".csv") = false → fnmatch_csv (id +:+ ".csv") = true.
Proof.
  intros H. unfold fnmatch_csv. rewrite H, lower_app. simpl.
  apply (endswith_app ".csv").
Qed.

(** ** The inventory and the missing list *)

Lemma get_csv_list_run w : get_csv_list w = (Returned (scanned w), w).
Proof. reflexivity. Qed.

(** In a plain folder [glob] lists the tables whose names [*.csv]
    matches, each under the folder's path, a backslash and its name. *)
Lemma glob_csv_plain w :
  plain_folder w →
  glob_csv (cwd w +:+ "/*.csv") w
  = (λ n, cwd w +:+ backslash +:+ n) <$>
      filter (λ n, fnmatch_csv n = true) (map_to_list (output_folder w)).*1.
Proof.
  intros [Hb Hm]. unfold glob_csv.
  by rewrite strip_prefix_app, decide_True, Hb, Hm by done.
Qed.

Lemma missing_run feeder_id_list w :
  missing feeder_id_list (scanned w) w = (Returned (csvs_missing_of feeder_id_list w), w).
Proof. reflexivity. Qed.

Lemma elem_of_csvs_missing_of feeder_id_list w x :
  x ∈ csvs_missing_of feeder_id_list w ↔ x ∈ feeder_id_list ∧ x ∉ scanned w.
Proof.
  unfold csvs_missing_of. rewrite merge_sort_Permutation, elem_of_elements.
  rewrite elem_of_difference, !elem_of_list_to_set. done.
Qed.

Lemma NoDup_csvs_missing_of feeder_id_list w : NoDup (csvs_missing_of feeder_id_list w).
Proof.
  unfold csvs_missing_of. rewrite merge_sort_Permutation. apply NoDup_elements.
Qed.

Lemma same_output_scanned w w' : same_output w w' → scanned w' = scanned w.
Proof.
  intros (Ho & Hc & _ & Hg). unfold scanned, glob_csv. by rewrite Ho, Hc, Hg.
Qed.

Lemma same_output_csvs_missing_of ids w w' :
  same_output w w' → csvs_missing_of ids w' = csvs_missing_of ids w.
Proof.
  intros H. unfold csvs_missing_of. rewrite (same_output_scanned _ _ H).
  destruct H as (_ & _ & Hr & _). by rewrite Hr.
Qed.

(** The stem of a table in the output folder is in the inventory, when the
    folder is a plain one, the file name is one that [*.csv] matches and
    holds the folder prefix nowhere, and the stem has no [.csv] inside. *)
Lemma stem_is_scanned w id t :
  plain_folder w →
  output_folder w !! (id +:+ ".csv") = Some t →
  Str.contains ".csv" id = false →
  Str.startswith "." (id +:+ ".csv") = false →
  Str.contains (cwd w +:+ backslash) (id +:+ ".csv") = false →
  id ∈ scanned w.
Proof.
  intros Hplain Hfile Hstem Hdot Hdir. unfold scanned.
  rewrite (glob_csv_plain w Hplain).
  apply list_elem_of_fmap. exists (id +:+ ".csv").
  split; [by rewrite replace_csv_suffix|].
  apply list_elem_of_fmap. exists (cwd w +:+ backslash +:+ id +:+ ".csv").
  split.
  { rewrite <- str_app_assoc. rewrite replace_prefix; [done| |done].
    by destruct (cwd w). }
  apply list_elem_of_fmap. exists (id +:+ ".csv"). split; [done|].
  apply list_elem_of_filter. split; [by apply fnmatch_csv_stem|].
  apply list_elem_of_fmap. exists (id +:+ ".csv", t). split; [done|].
  by apply elem_of_map_to_list.
Qed.

(** ** Where the browser is sent *)

Lemma login_url_not_archive id : login_url ≠ archive_url id.
Proof.
  unfold archive_url. rewrite <- str_app_assoc.
  change login_url with
    ("https://www.pge.com/b2b/distribution-resource-planning/integration-capacity-map.s"
     +:+ "html").
  intros H. by apply app_eq_suffix in H as [_ ?].
Qed.

Global Instance archive_url_inj : Inj (=) (=) archive_url.
Proof.
  intros x y H. unfold archive_url in H. apply (inj _) in H.
  by apply app_eq_suffix in H as [? _].
Qed.

Section Navigation.

Context (cfg : config) (urls : string → Prop).

Lemma login_gets fuel url u p :
  urls url → preserves (grows_by (gets_within urls)) (login cfg fuel url u p).
Proof. intros H. unfold login, login_loop, login_body. frame. Qed.

Lemma process_zip_gets fuel prefix id :
  urls (prefix +:+ id +:+ ".zip") →
  preserves (grows_by (gets_within urls)) (process_zip cfg fuel prefix id).
Proof.
  intros H. unfold process_zip, fetch, fetch_loop, fetch_body, extract,
    extract_loop, extract_body, cleanup, cleanup_loop, cleanup_body, save.
  frame.
Qed.

End Navigation.

Lemma print_run line w : print line w = (Returned tt, log (Print line) w).
Proof. reflexivity. Qed.

(** Every navigation of the pass goes to the login page or to the
    archive of a feeder on the missing list, as that list stands when the
    pass begins. *)
Lemma acquisition_pass_gets cfg fuel feeder_id_list w :
  grows_by
    (gets_within (λ url, url = login_url ∨
                         ∃ x, x ∈ csvs_missing_of feeder_id_list w ∧ url = archive_url x))
    w (acquisition_pass cfg fuel feeder_id_list w).2.
Proof.
  set (urls := λ url, url = login_url ∨ _). set (R := grows_by (gets_within urls)).
  assert (PreOrder R) as HR by apply _.
  unfold acquisition_pass. rewrite bind_run.
  change (launch_chrome w) with (Returned tt, log LaunchChrome w). cbv beta iota.
  assert (R w (log LaunchChrome w)) as H0 by (by apply grows_by_log).
  assert (same_output w (log LaunchChrome w)) as S0 by done.
  rewrite bind_run.
  pose proof (login_gets cfg urls fuel login_url (username cfg) (password cfg)
                (or_introl eq_refl) (log LaunchChrome w)) as H1.
  pose proof (login_same_output cfg fuel login_url (username cfg) (password cfg)
                (log LaunchChrome w)) as S1.
  destruct (login cfg fuel login_url (username cfg) (password cfg) (log LaunchChrome w))
    as [[[]| |] w2]; simpl in H1, S1; cbv beta iota; try (by etrans).
  assert (R w w2) as H2 by (by etrans). assert (same_output w w2) as S2 by (by etrans).
  clear H0 S0 H1 S1.
  rewrite bind_run, get_csv_list_run, bind_run, missing_run.
  rewrite (same_output_csvs_missing_of _ _ _ S2).
  rewrite bind_run, print_run. cbv beta iota. rewrite bind_run.
  set (w3 := log _ w2). assert (R w w3) as H3.
  { etrans; [exact H2|]. by apply grows_by_log. }
  pose proof (preserves_for_each R (csvs_missing_of feeder_id_list w)
                (λ id, print id ;; process_zip cfg fuel data_url id)) as H4.
  specialize (H4 ltac:(intros x Hx; apply preserves_bind; [apply _|by apply print_grows|];
                        intros _; apply process_zip_gets; right; by exists x) w3).
  destruct (for_each _ _ w3) as [[[]| |] w4]; simpl in H4; cbv beta iota;
    try (by etrans).
  rewrite bind_run, get_csv_list_run, bind_run. simpl.
  etrans; [exact H3|]. etrans; [exact H4|].
  etrans; [by apply (grows_by_log _ (Print "IDs that weren't processed:"))|].
  by apply grows_by_log.
Qed.




(** ** The run with one corrupt archive *)

(** C1 on the code.  Feeder A's archive is corrupt: [process_zip] does
    not return; the [NameError] for [df] leaves it. *)
Theorem corrupt_archive_escapes_the_worker :
  let w := fresh_world ["A"; "B"] "A" in
  (extract sample_config 20 "A" (fetch sample_config 20 data_url "A" w).2).1
  = Returned (20%Z, true, None) ∧
  (process_zip sample_config 20 data_url "A" w).1 = Raised (UnboundLocalError "df").
Proof. intros w. split; vm_compute; reflexivity. Qed.

(** C2 on the code.  With the flag set the third loop still tries to
    delete the archive, and deletes it. *)
Theorem flagged_archive_is_still_deleted :
  let w := fresh_world ["A"; "B"] "A" in
  let w1 := (fetch sample_config 20 data_url "A" w).2 in
  let w2 := (extract sample_config 20 "A" w1).2 in
  let w3 := (cleanup sample_config 20 "A" true w2).2 in
  (extract sample_config 20 "A" w1).1 = Returned (20%Z, true, None) ∧
  download_folder w2 !! "A.zip" = Some CorruptZip ∧
  (cleanup sample_config 20 "A" true w2).1 = Returned 0%Z ∧
  trace w3 = trace w2 ++ [Print "trying to delete A"; Remove "C:/dl/A.zip";
                          Print "deleted A"] ∧
  download_folder w3 !! "A.zip" = None ∧
  trace (process_zip sample_config 20 data_url "A" w).2 = trace w3.
Proof.
  intros w w1 w2 w3.
  split; [vm_compute; reflexivity|]. split; [vm_compute; reflexivity|].
  split; [vm_compute; reflexivity|]. split; [vm_compute; reflexivity|].
  split; vm_compute; reflexivity.
Qed.

(** C4 on the code.  Universe A and B, A's archive corrupt: whichever of
    the two the set yields first, the script ends in the [NameError] and
    never prints the final list.  With A first B is never fetched and the
    output folder stays empty; with B first it holds [B.csv]. *)
Theorem one_corrupt_archive_aborts_the_run :
  let a_first := main sample_config 20 (fresh_world ["A"; "B"] "A") in
  let b_first := main sample_config 20 (fresh_world ["A"; "B"] "B") in
  a_first.1 = Raised (UnboundLocalError "df") ∧
  b_first.1 = Raised (UnboundLocalError "df") ∧
  filter (λ e, is_print_list e = true) (trace a_first.2) = [] ∧
  filter (λ e, is_print_list e = true) (trace b_first.2) = [] ∧
  output_folder a_first.2 = ∅ ∧
  output_folder b_first.2 = {[ "B.csv" := sample_table ]} ∧
  Get (archive_url "B") ∉ trace a_first.2.
Proof.
  intros a_first b_first.
  split; [vm_compute; reflexivity|]. split; [vm_compute; reflexivity|].
  split; [vm_compute; reflexivity|]. split; [vm_compute; reflexivity|].
  split; [vm_compute; reflexivity|]. split; [vm_compute; reflexivity|].
  apply (bool_decide_unpack _). vm_compute. exact I.
Qed.

(** ** The theorems at the concrete run *)

Lemma corrupt_archive_writes_nothing_witness :
  output_folder (process_zip sample_config 20 data_url "A"
                   (fresh_world ["A"; "B"] "A")).2 = ∅.
Proof.
  apply (corrupt_archive_writes_nothing sample_config 20 data_url "A"
           (fresh_world ["A"; "B"] "A")
           0%Z (fetch sample_config 20 data_url "A" (fresh_world ["A"; "B"] "A")).2
           20%Z None
           (extract sample_config 20 "A"
              (fetch sample_config 20 data_url "A" (fresh_world ["A"; "B"] "A")).2).2);
    vm_compute; reflexivity.
Defined.

Lemma successful_worker_saves_and_cleans_witness :
  ∃ w', process_zip sample_config 20 data_url "B" (fresh_world ["A"; "B"] "B")
        = (Returned tt, w') ∧
        output_folder w' !! ("B" +:+ ".csv") = Some sample_table ∧
        download_folder w' !! ("B" +:+ ".zip") = None.
Proof.
  apply (successful_worker_saves_and_cleans sample_config 20 data_url "B"
           (fresh_world ["A"; "B"] "B")
           0%Z (fetch sample_config 20 data_url "B" (fresh_world ["A"; "B"] "B")).2
           2%Z false sample_table
           (extract sample_config 20 "B"
              (fetch sample_config 20 data_url "B" (fresh_world ["A"; "B"] "B")).2).2);
    vm_compute; reflexivity.
Defined.

Lemma exhausted_extraction_raises_NameError_witness :
  ∃ e w', process_zip sample_config 20 data_url "C" (fresh_world ["C"] "C")
          = (Raised e, w') ∧ is_NameError e = true.
Proof.
  destruct (exhausted_extraction_raises_NameError sample_config 20 data_url "C"
              (fresh_world ["C"] "C")
              0%Z (fetch sample_config 20 data_url "C" (fresh_world ["C"] "C")).2
              20%Z
              (extract sample_config 20 "C"
                 (fetch sample_config 20 data_url "C" (fresh_world ["C"] "C")).2).2)
    as (_ & e & w' & Hrun & _ & Hname & _);
    [vm_compute; reflexivity..|].
  exists e, w'. split; [exact Hrun|exact Hname].
Defined.

Lemma extraction_retries_only_on_missing_file_witness :
  (extract_loop sample_config 1 "A" (0%Z, false, None)
     (fetch sample_config 20 data_url "A" (fresh_world ["A"; "B"] "A")).2).1
  = Returned (20%Z, true, None).
Proof.
  destruct (extraction_retries_only_on_missing_file sample_config 0 "A" 0%Z false None
              (fetch sample_config 20 data_url "A" (fresh_world ["A"; "B"] "A")).2)
    as [Hrun _]; [reflexivity|].
  rewrite Hrun. vm_compute. reflexivity.
Defined.



(** ** Two runs without a failure *)

(** Scenario, all feeders present: with [A.csv] and [B.csv] in the output folder
    and feeders A and B to get, the missing list is empty, the browser is
    sent to the login page and nowhere else, and the final list printed
    is empty. *)
Theorem nothing_to_do_when_all_present :
  let w := stocked_world ["A"; "B"]
             {[ "A.csv" := sample_table; "B.csv" := sample_table ]} in
  let run := main sample_config 20 w in
  csvs_missing_of ["A"; "B"] w = [] ∧
  run.1 = Returned tt ∧
  gets (trace run.2) = [Get login_url] ∧
  filter (λ e, is_print_list e = true) (trace run.2) = [PrintList []] ∧
  output_folder run.2 = output_folder w.
Proof.
  intros w run.
  split; [vm_compute; reflexivity|]. split; [vm_compute; reflexivity|].
  split; [vm_compute; reflexivity|]. split; vm_compute; reflexivity.
Qed.

(** Scenario, fresh run: feeders A, B and C, an empty output folder and three good
    archives: the script returns, the browser is sent to the login page
    and to each archive once, the output folder ends with the three tables, the download
    folder ends empty, and the final list printed is empty. *)
Theorem fresh_run_gets_every_feeder :
  let run := main sample_config 20 (healthy_world ["A"; "B"; "C"]) in
  run.1 = Returned tt ∧
  gets (trace run.2) ≡ₚ Get login_url :: (Get <$> (archive_url <$> ["A"; "B"; "C"])) ∧
  output_folder run.2
  = {[ "A.csv" := sample_table; "B.csv" := sample_table; "C.csv" := sample_table ]} ∧
  download_folder run.2 = ∅ ∧
  filter (λ e, is_print_list e = true) (trace run.2) = [PrintList []].
Proof.
  intros run.
  split; [vm_compute; reflexivity|].
  split; [apply (bool_decide_unpack _); vm_compute; exact I|].
  split; [vm_compute; reflexivity|]. split; vm_compute; reflexivity.
Qed.

(** X14. An archive that opens but has no member [<id>.csv] makes
    [process_zip] end in the [KeyError] of the lookup, with the archive
    still in the download folder and nothing written. *)
Theorem archive_without_member_raises_KeyError cfg fuel prefix id w i0 w1 members :
  fetch cfg (S fuel) prefix id w = (Returned i0, w1) →
  (0 < tries cfg)%Z →
  download_folder w1 !! (id +:+ ".zip") = Some (Zip members) →
  members !! (id +:+ ".csv") = None →
  ∃ w', process_zip cfg (S fuel) prefix id w = (Raised (KeyError (id +:+ ".csv")), w') ∧
        download_folder w' !! (id +:+ ".zip") = Some (Zip members) ∧
        output_folder w' = output_folder w.
Proof.
  intros Hf Htries Hzip Hmem.
  pose proof (fetch_same_output cfg (S fuel) prefix id w) as [Ho _].
  rewrite Hf in Ho. simpl in Ho.
  unfold process_zip. rewrite bind_run, Hf, bind_run. unfold extract.
  rewrite extract_loop_unfold. cbn [fst]. apply Z.ltb_lt in Htries. rewrite Htries.
  rewrite bind_run, (extract_body_zip _ _ _ _ _ _ _ Hzip). cbv zeta. rewrite Hmem.
  eexists. split; [reflexivity|]. split; [exact Hzip|exact Ho].
Qed.

Lemma archive_without_member_raises_KeyError_witness :
  ∃ w', process_zip sample_config 20 data_url "D"
          (set_download_folder {[ "D.zip" := Zip ∅ ]} (healthy_world ["D"]))
        = (Raised (KeyError ("D" +:+ ".csv")), w').
Proof.
  destruct (archive_without_member_raises_KeyError sample_config 19 data_url "D"
              (set_download_folder {[ "D.zip" := Zip ∅ ]} (healthy_world ["D"]))
              0%Z
              (fetch sample_config 20 data_url "D"
                 (set_download_folder {[ "D.zip" := Zip ∅ ]} (healthy_world ["D"]))).2
              ∅)
    as (w' & Hrun & _); [vm_compute; reflexivity|reflexivity|vm_compute; reflexivity|
                         vm_compute; reflexivity|].
  exists w'. exact Hrun.
Defined.

(** * Further properties of the script *)

(** ** Which exceptions leave a computation *)

Section RaisesWithin.

Context (E : exn → Prop).

Lemma raises_within_ret {A} (a : A) : raises_within E (mret a).
Proof. by intros w e. Qed.

Lemma raises_within_bind {A B} (m : M A) (f : A → M B) :
  raises_within E m → (∀ a, raises_within E (f a)) → raises_within E (m ≫= f).
Proof.
  intros Hm Hf w e. rewrite bind_run. specialize (Hm w).
  destruct (m w) as [[a| e'|] w']; simpl in *; [apply Hf| |done].
  intros [= <-]. by apply Hm.
Qed.

Lemma raises_within_while {L} (fuel : nat) (cond : L → bool)
    (body : L → M (flow * L)) (l : L) :
  (∀ l, raises_within E (body l)) → raises_within E (while fuel cond body l).
Proof.
  intros Hb. revert l. induction fuel as [|fuel IH]; intros l;
    rewrite while_unfold; destruct (cond l); try by intros w e.
  apply raises_within_bind; [apply Hb|]. intros [[] l']; [apply IH|by intros w e].
Qed.

Lemma raises_within_for_each {A} (xs : list A) (body : A → M unit) :
  (∀ x, x ∈ xs → raises_within E (body x)) → raises_within E (for_each xs body).
Proof.
  induction xs as [|x xs IH]; intros Hb; simpl; [by intros w e|].
  apply raises_within_bind; [apply Hb; by left|].
  intros _. apply IH. intros y Hy. apply Hb. by right.
Qed.

End RaisesWithin.

Lemma raises_within_weaken {A} (E E' : exn → Prop) (m : M A) :
  (∀ e, E e → E' e) → raises_within E m → raises_within E' m.
Proof. intros H Hm w e He. by apply H, (Hm w). Qed.

(** ** The first loop of [process_zip], one pass at a time *)

Lemma driver_get_result url w :
  (driver_get url w).1 = Returned tt ∧ head (window_faults w) ≠ Some true ∨
  (driver_get url w).1 = Raised NoSuchWindowException ∧ head (window_faults w) = Some true.
Proof.
  unfold driver_get. simpl. destruct (window_faults w) as [|[] faults]; simpl; auto.
Qed.

(** One pass of the first loop: when the navigation goes through the loop
    is left; when the window is gone the counter goes up and the script
    sleeps a second. *)
Lemma fetch_body_run prefix id i w :
  fetch_body prefix id i w =
  match driver_get (prefix +:+ id +:+ ".zip") w with
  | (Raised NoSuchWindowException, w1) =>
      (Returned (Next, (i + 1)%Z),
       tick 1 (log (Sleep 1) (log (Print "no such window...") w1)))
  | (Raised e, w1) => (Raised e, w1)
  | (Returned _, w1) => (Returned (Break, i), log (Print ("downloaded " +:+ id)) w1)
  | (OutOfFuel, w1) => (OutOfFuel, w1)
  end.
Proof.
  unfold fetch_body, try_except. rewrite bind_run.
  destruct (driver_get _ w) as [[[]|e|] w1]; try done. by destruct e.
Qed.

Lemma fetch_loop_unfold cfg fuel prefix id i :
  fetch_loop cfg fuel prefix id i =
  if (i <? tries cfg)%Z then
    match fuel with
    | O => λ w, (OutOfFuel, w)
    | S fuel' =>
        r ← fetch_body prefix id i;
        match r with
        | (Break, i') => mret i'
        | (Next, i') => fetch_loop cfg fuel' prefix id i'
        end
    end
  else mret i.
Proof. unfold fetch_loop. by rewrite while_unfold at 1. Qed.

(** The first loop returns, after navigations that found the window gone,
    each followed by a second of sleep, and then either one navigation
    that went through or, when the counter has run out, nothing. *)
Lemma fetch_loop_attempts cfg fuel prefix id i w :
  iterations_left cfg i ≤ fuel →
  ∃ i' w' (k : nat) (final : list event),
    fetch_loop cfg fuel prefix id i w = (Returned i', w') ∧
    trace w' = trace w
               ++ concat (replicate k (failed_navigation (prefix +:+ id +:+ ".zip")))
               ++ final ∧
    (final = [Get (prefix +:+ id +:+ ".zip"); Print ("downloaded " +:+ id)]
       ∧ k < iterations_left cfg i
     ∨ final = [] ∧ k = iterations_left cfg i).
Proof.
  revert i w. induction fuel as [|fuel IH]; intros i w Hle;
    rewrite fetch_loop_unfold; destruct (i <? tries cfg)%Z eqn:Hc.
  - apply iterations_left_pos in Hc. lia.
  - exists i, w, 0, []. simpl. rewrite app_nil_r. split; [done|]. split; [done|].
    right. split; [done|]. apply Z.ltb_ge in Hc. unfold iterations_left. lia.
  - rewrite bind_run, fetch_body_run.
    pose proof (iterations_left_pos cfg i Hc) as Hpos.
    assert (iterations_left cfg i = S (iterations_left cfg (i + 1))) as Heq
      by (apply Z.ltb_lt in Hc; unfold iterations_left; lia).
    pose proof (driver_get_trace (prefix +:+ id +:+ ".zip") w) as Ht.
    destruct (driver_get_result (prefix +:+ id +:+ ".zip") w) as [[Hr _]|[Hr _]];
      destruct (driver_get _ w) as [r w1]; simpl in Hr, Ht; subst r.
    + exists i, (log (Print ("downloaded " +:+ id)) w1), 0,
        [Get (prefix +:+ id +:+ ".zip"); Print ("downloaded " +:+ id)].
      split; [done|]. rewrite log_trace, Ht, <- (assoc_L (++)). split; [done|].
      left. split; [done|lia].
    + destruct (IH (i + 1)%Z (tick 1 (log (Sleep 1) (log (Print "no such window...") w1))))
        as (i' & w' & k & final & Hrun & Ht' & Hend); [lia|].
      exists i', w', (S k), final. cbv beta iota. rewrite Hrun. split; [done|]. split.
      { rewrite Ht', tick_trace, !log_trace, Ht. simpl.
        by rewrite <- !(assoc_L (++)). }
      destruct Hend as [[-> Hn]|[-> Hn]]; [left|right]; (split; [done|lia]).
  - exists i, w, 0, []. simpl. rewrite app_nil_r. split; [done|]. split; [done|].
    right. split; [done|]. apply Z.ltb_ge in Hc. unfold iterations_left. lia.
Qed.

(** ** What leaves [process_zip] *)

Lemma process_zip_run cfg fuel prefix id w :
  process_zip cfg fuel prefix id w =
  match fetch cfg fuel prefix id w with
  | (Returned _, w1) =>
      match extract cfg fuel id w1 with
      | (Returned (_, badzip, df), w2) =>
          match cleanup cfg fuel id badzip w2 with
          | (Returned _, w3) => save id badzip df w3
          | (Raised e, w3) => (Raised e, w3)
          | (OutOfFuel, w3) => (OutOfFuel, w3)
          end
      | (Raised e, w2) => (Raised e, w2)
      | (OutOfFuel, w2) => (OutOfFuel, w2)
      end
  | (Raised e, w1) => (Raised e, w1)
  | (OutOfFuel, w1) => (OutOfFuel, w1)
  end.
Proof.
  unfold process_zip. rewrite bind_run.
  destruct (fetch cfg fuel prefix id w) as [[i0| |] w1]; [|done..].
  rewrite bind_run.
  destruct (extract cfg fuel id w1) as [[[[i b] df]| |] w2]; [|done..].
  by rewrite bind_run.
Qed.

Lemma fetch_body_never_raises prefix id i : raises_within (λ _, False) (fetch_body prefix id i).
Proof.
  intros w e. rewrite fetch_body_run.
  destruct (driver_get_result (prefix +:+ id +:+ ".zip") w) as [[Hr _]|[Hr _]];
    destruct (driver_get _ w) as [r w1]; simpl in Hr; subst r; done.
Qed.

Lemma extract_body_raises cfg id l :
  raises_within (λ e, e = KeyError (id +:+ ".csv")) (extract_body cfg id l).
Proof.
  intros w e. destruct l as [[i b] df].
  destruct (download_folder w !! (id +:+ ".zip")) as [[|members]|] eqn:Hz.
  - by rewrite (extract_body_corrupt _ _ _ _ _ _ Hz).
  - rewrite (extract_body_zip _ _ _ _ _ _ _ Hz). cbv zeta.
    destruct (members !! (id +:+ ".csv")); [done|]. by intros [= <-].
  - by rewrite (extract_body_missing _ _ _ _ _ _ Hz).
Qed.

Lemma cleanup_body_never_raises cfg id badzip i :
  raises_within (λ _, False) (cleanup_body cfg id badzip i).
Proof.
  intros w e.
  destruct (download_folder w !! (id +:+ ".zip")) as [a|] eqn:Hz.
  - by rewrite (cleanup_body_present _ _ _ _ _ _ Hz).
  - by rewrite (cleanup_body_missing _ _ _ _ _ Hz).
Qed.

Lemma login_body_never_raises u p i : raises_within (λ _, False) (login_body u p i).
Proof. intros w e. rewrite login_body_run. by destruct (attempt_succeeds w). Qed.

Lemma fetch_never_raises cfg fuel prefix id :
  raises_within (λ _, False) (fetch cfg fuel prefix id).
Proof. apply raises_within_while, fetch_body_never_raises. Qed.

Lemma extract_raises cfg fuel id :
  raises_within (λ e, e = KeyError (id +:+ ".csv")) (extract cfg fuel id).
Proof. apply raises_within_while, extract_body_raises. Qed.

Lemma cleanup_never_raises cfg fuel id badzip :
  raises_within (λ _, False) (cleanup cfg fuel id badzip).
Proof. apply raises_within_while, cleanup_body_never_raises. Qed.

(** [save] either raises for the unassigned [df] or writes the table. *)
Lemma save_run id badzip df w :
  save id badzip df w =
  match df with
  | Some t => (Returned tt,
               set_output_folder (<[id +:+ ".csv" := t]> (output_folder w))
                 (log (ToCsv (id +:+ ".csv")) w))
  | None => (Raised (UnboundLocalError "df"), w)
  end.
Proof. unfold save. rewrite truthy_invert. by destruct df. Qed.

(** The first pass of the third loop deletes an archive that is there. *)
Lemma cleanup_deletes_present cfg fuel id badzip w a :
  (0 < tries cfg)%Z →
  download_folder w !! (id +:+ ".zip") = Some a →
  ∃ w', cleanup cfg (S fuel) id badzip w = (Returned 0%Z, w') ∧
        download_folder w' !! (id +:+ ".zip") = None.
Proof.
  intros Ht Hz. unfold cleanup. rewrite cleanup_loop_unfold.
  apply Z.ltb_lt in Ht. rewrite Ht, bind_run.
  rewrite (cleanup_body_present _ _ _ _ _ _ Hz). eexists. split; [done|].
  simpl. apply lookup_delete_eq.
Qed.

Lemma process_zip_returned cfg fuel prefix id w w' :
  process_zip cfg fuel prefix id w = (Returned tt, w') →
  ∃ t, output_folder w' = <[id +:+ ".csv" := t]> (output_folder w) ∧
       download_folder w' !! (id +:+ ".zip") = None ∧
       ToCsv (id +:+ ".csv") ∈ trace w'.
Proof.
  rewrite process_zip_run.
  pose proof (fetch_same_output cfg fuel prefix id w) as [H1 _].
  destruct (fetch cfg fuel prefix id w) as [[i0| |] w1]; [|done..].
  pose proof (extract_same_output cfg fuel id w1) as [H2 _].
  destruct (extract cfg fuel id w1) as [[[[i b] df]| |] w2] eqn:He; [|done..].
  pose proof (cleanup_same_output cfg fuel id b w2) as [H3 _].
  destruct df as [t|];
    [|by destruct (cleanup _ _ _ _ _) as [[| |] ?]; rewrite ?save_run].
  apply extract_loop_bound in He as (_ & Hfuel & Htries & members & Hzip & _).
  destruct fuel as [|fuel]; [done|].
  destruct (cleanup_deletes_present cfg fuel id b w2 _ Htries Hzip) as (w3 & Hc & Hgone).
  rewrite Hc in H3 |- *. rewrite save_run. simpl in *. intros [= <-]. exists t. simpl.
  split; [congruence|]. split; [done|]. set_solver.
Qed.

Lemma process_zip_not_returned cfg fuel prefix id w :
  (process_zip cfg fuel prefix id w).1 ≠ Returned tt →
  output_folder (process_zip cfg fuel prefix id w).2 = output_folder w ∧
  ∀ e, (process_zip cfg fuel prefix id w).1 = Raised e →
       e = UnboundLocalError "df" ∨ e = KeyError (id +:+ ".csv").
Proof.
  rewrite process_zip_run.
  pose proof (fetch_same_output cfg fuel prefix id w) as [H1 _].
  pose proof (fetch_never_raises cfg fuel prefix id w) as R1.
  destruct (fetch cfg fuel prefix id w) as [[i0|e1|] w1]; simpl in *;
    [|by destruct (R1 e1)|done].
  pose proof (extract_same_output cfg fuel id w1) as [H2 _].
  pose proof (extract_raises cfg fuel id w1) as R2.
  destruct (extract cfg fuel id w1) as [[[[i b] df]|e2|] w2]; simpl in *;
    [|intros _; split; [congruence|intros e [= <-]; right; by apply R2]
     |intros _; split; [congruence|done]].
  pose proof (cleanup_same_output cfg fuel id b w2) as [H3 _].
  pose proof (cleanup_never_raises cfg fuel id b w2) as R3.
  destruct (cleanup cfg fuel id b w2) as [[i3|e3|] w3]; simpl in *;
    [|by destruct (R3 e3)|intros _; split; [congruence|done]].
  rewrite save_run. destruct df as [t|]; [done|]. intros _. simpl.
  split; [congruence|]. intros e [= <-]. by left.
Qed.

(** X1. A call of [process_zip] that returns has written exactly one
    table, [<id>.csv], with every other file of the output folder as it
    was, and has left no [<id>.zip] in the download folder. *)
Theorem worker_returns_only_after_saving cfg fuel prefix id w w' :
  process_zip cfg fuel prefix id w = (Returned tt, w') →
  ∃ t, output_folder w' = <[id +:+ ".csv" := t]> (output_folder w) ∧
       download_folder w' !! (id +:+ ".zip") = None ∧
       ToCsv (id +:+ ".csv") ∈ trace w'.
Proof. apply process_zip_returned. Qed.

(** X2. When [process_zip] raises, the exception is the [NameError] for
    the unassigned [df] or the [KeyError] for a missing member
    [<id>.csv]: the file-not-found, bad-archive and no-such-window
    exceptions are all handled inside.  Whenever it does not return, the
    output folder is as it was. *)
Theorem worker_failure_writes_nothing cfg fuel prefix id w :
  (process_zip cfg fuel prefix id w).1 ≠ Returned tt →
  output_folder (process_zip cfg fuel prefix id w).2 = output_folder w ∧
  ∀ e, (process_zip cfg fuel prefix id w).1 = Raised e →
       e = UnboundLocalError "df" ∨ e = KeyError (id +:+ ".csv").
Proof. apply process_zip_not_returned. Qed.

(** ** The pass as a whole *)

Global Instance output_grows_preorder : PreOrder output_grows.
Proof.
  split.
  - by intros w.
  - intros w1 w2 w3 (H1 & H1' & H1'' & H1''') (H2 & H2' & H2'' & H2''').
    split; [by etrans|]. repeat split; congruence.
Qed.

Lemma same_output_grows w w' : same_output w w' → output_grows w w'.
Proof. intros (Ho & Hc & Hr). split; [by rewrite Ho|done]. Qed.

Lemma process_zip_output_grows cfg fuel prefix id :
  preserves output_grows (process_zip cfg fuel prefix id).
Proof.
  intros w. pose proof (process_zip_not_returned cfg fuel prefix id w) as Hn.
  pose proof (process_zip_returned cfg fuel prefix id w) as Hr.
  set (R := λ w w' : world, cwd w' = cwd w ∧ str_rank w' = str_rank w
                             ∧ glob_elsewhere w' = glob_elsewhere w).
  assert (preserves R (process_zip cfg fuel prefix id)) as Hc.
  { assert (PreOrder R).
    { split; [by intros ?|]. intros ??? (? & ? & ?) (? & ? & ?).
      repeat split; congruence. }
    assert (∀ A (m : M A), preserves same_output m → preserves R m) as Hw.
    { intros A m Hm w0. by destruct (Hm w0) as (_ & ? & ? & ?). }
    unfold process_zip, save.
    repeat first
      [ apply preserves_bind; [done| |intros ?]
      | apply Hw, fetch_same_output
      | apply Hw, extract_same_output
      | apply Hw, cleanup_same_output
      | match goal with
        | |- preserves _ (let '(_, _) := ?p in _) => destruct p
        | |- preserves _ (if ?b then _ else _) => destruct b
        | |- preserves _ (match ?o with Some _ => _ | None => _ end) => destruct o
        end
      | by intros ? ].
  }
  specialize (Hc w).
  destruct (process_zip cfg fuel prefix id w) as [[[]| |] w'] eqn:Hp; simpl in *.
  - destruct (Hr w' eq_refl) as (t & Ho & _). split; [|done].
    rewrite Ho, dom_insert_L. apply union_subseteq_r.
  - destruct Hn as [Ho _]; [done|]. split; [by rewrite Ho|done].
  - destruct Hn as [Ho _]; [done|]. split; [by rewrite Ho|done].
Qed.

Lemma driver_step_output_grows cfg fuel id :
  preserves output_grows (driver_step cfg fuel id).
Proof.
  apply preserves_bind; [apply _| |intros _; apply process_zip_output_grows].
  intros w. by apply same_output_grows.
Qed.

Lemma driver_step_returned cfg fuel id w w' :
  driver_step cfg fuel id w = (Returned tt, w') →
  is_Some (output_folder w' !! (id +:+ ".csv")).
Proof.
  unfold driver_step. rewrite bind_run, print_run.
  intros (t & Ho & _)%process_zip_returned. rewrite Ho. simpl.
  rewrite lookup_insert_eq. by eexists.
Qed.

(** After a loop that returns, what each pass established and later
    passes keep still holds. *)
Lemma for_each_returned {A} (R : relation world) `{!PreOrder R}
    (Q : A → world → Prop) (xs : list A) (body : A → M unit) :
  (∀ x, preserves R (body x)) →
  (∀ x w w', body x w = (Returned tt, w') → Q x w') →
  (∀ x w w', Q x w → R w w' → Q x w') →
  ∀ w w', for_each xs body w = (Returned tt, w') → ∀ x, x ∈ xs → Q x w'.
Proof.
  intros Hpres Hpost Hkeep. induction xs as [|x xs IH]; intros w w' Hrun y Hy;
    [by apply elem_of_nil in Hy|].
  simpl in Hrun. rewrite bind_run in Hrun.
  destruct (body x w) as [[[]| |] w1] eqn:Hb; [|done..].
  apply elem_of_cons in Hy as [->|Hy]; [|by apply (IH w1 w')].
  apply (Hkeep x w1 w'); [by apply (Hpost x w)|].
  pose proof (preserves_for_each R xs body ltac:(auto) w1) as Hr.
  by rewrite Hrun in Hr.
Qed.

(** The pass, by how [login] and the loop over the missing list end. *)
Lemma acquisition_pass_run cfg fuel feeder_id_list w :
  acquisition_pass cfg fuel feeder_id_list w =
  match login cfg fuel login_url (username cfg) (password cfg) (log LaunchChrome w) with
  | (Returned _, w2) =>
      let csvs_missing := csvs_missing_of feeder_id_list w2 in
      match for_each csvs_missing (driver_step cfg fuel)
              (log (Print ("retrieving " +:+ pretty (length csvs_missing)
                           +:+ " feeder IDs")) w2) with
      | (Returned _, w4) =>
          (Returned tt,
           log (PrintList (csvs_missing_of feeder_id_list w4))
             (log (Print "IDs that weren't processed:") w4))
      | (Raised e, w4) => (Raised e, w4)
      | (OutOfFuel, w4) => (OutOfFuel, w4)
      end
  | (Raised e, w2) => (Raised e, w2)
  | (OutOfFuel, w2) => (OutOfFuel, w2)
  end.
Proof.
  unfold acquisition_pass. rewrite bind_run.
  change (launch_chrome w) with (Returned tt, log LaunchChrome w). cbv beta iota.
  rewrite bind_run.
  destruct (login _ _ _ _ _ _) as [[[]| |] w2]; [|done..].
  rewrite bind_run, get_csv_list_run, bind_run, missing_run.
  rewrite bind_run, print_run. cbv beta iota zeta. rewrite bind_run.
  fold (driver_step cfg fuel).
  destruct (for_each _ _ _) as [[[]| |] w4]; [|done..].
  by rewrite bind_run, get_csv_list_run, bind_run.
Qed.

Lemma login_returns cfg fuel url u p w :
  Z.to_nat (tries cfg) ≤ fuel →
  head (window_faults w) ≠ Some true →
  ∃ w', login cfg fuel url u p w = (Returned tt, w').
Proof.
  intros Hfuel Hw. unfold login. rewrite bind_run.
  destruct (driver_get_result url w) as [[Hr _]|[_ Hr]]; [|done].
  destruct (driver_get url w) as [r w1]. simpl in Hr. subst r.
  rewrite bind_run. simpl. rewrite bind_run.
  destruct (login_loop_attempts cfg fuel u p 0 (tick 2 (log (Sleep 2) w1)))
    as (i' & w2 & _ & _ & Hrun & _).
  { unfold iterations_left. by rewrite Z.sub_0_r. }
  rewrite Hrun. by eexists.
Qed.

Lemma elem_of_scanned w x :
  plain_folder w →
  x ∈ scanned w ↔
  ∃ n, n ∈ dom (output_folder w) ∧ fnmatch_csv n = true ∧
       x = Str.replace (Str.replace (cwd w +:+ backslash +:+ n) (cwd w +:+ backslash) "")
             ".csv" "".
Proof.
  intros Hplain. unfold scanned. rewrite (glob_csv_plain w Hplain).
  rewrite list_elem_of_fmap. split.
  - intros (y & -> & (z & -> & (n & -> & [Hm Hn]%list_elem_of_filter)%list_elem_of_fmap)
                        %list_elem_of_fmap).
    exists n. split; [|done].
    apply list_elem_of_fmap in Hn as ([k v] & -> & Hkv).
    apply elem_of_map_to_list in Hkv. apply elem_of_dom. by eexists.
  - intros (n & [v Hn]%elem_of_dom & Hm & ->). eexists. split; [done|].
    apply list_elem_of_fmap. eexists. split; [done|].
    apply list_elem_of_fmap. exists n. split; [done|].
    apply list_elem_of_filter. split; [done|].
    apply list_elem_of_fmap. exists (n, v). split; [done|].
    by apply elem_of_map_to_list.
Qed.

Lemma output_grows_plain_folder w w' :
  output_grows w w' → plain_folder w → plain_folder w'.
Proof. intros (_ & Hc & _). unfold plain_folder. by rewrite Hc. Qed.

(** The inventory of a plain folder only gains entries when the folder
    gains files. *)
Lemma scanned_output_grows w w' x :
  plain_folder w → output_grows w w' → x ∈ scanned w → x ∈ scanned w'.
Proof.
  intros Hplain Hg. pose proof (output_grows_plain_folder _ _ Hg Hplain) as Hplain'.
  destruct Hg as (Hd & Hc & _). rewrite !elem_of_scanned, Hc by done.
  intros (n & Hn & Hm & ->). exists n. split; [by apply Hd|done].
Qed.

Lemma csvs_missing_of_all_scanned feeder_id_list w :
  (∀ id, id ∈ feeder_id_list → id ∈ scanned w) → csvs_missing_of feeder_id_list w = [].
Proof.
  intros H. destruct (csvs_missing_of feeder_id_list w) as [|x l] eqn:E; [done|].
  assert (x ∈ csvs_missing_of feeder_id_list w) as Hx by (rewrite E; by left).
  apply elem_of_csvs_missing_of in Hx as [Hin Hout]. by destruct Hout; apply H.
Qed.

(** With nothing missing the pass navigates to the login page only,
    prints an empty final list and leaves the output folder alone. *)
Lemma acquisition_pass_nothing_missing cfg fuel feeder_id_list w :
  Z.to_nat (tries cfg) ≤ fuel →
  head (window_faults w) ≠ Some true →
  (∀ id, id ∈ feeder_id_list → id ∈ scanned w) →
  ∃ w' events,
    acquisition_pass cfg fuel feeder_id_list w = (Returned tt, w') ∧
    output_folder w' = output_folder w ∧
    trace w' = trace w ++ events ++ [PrintList []] ∧
    ∀ url, Get url ∈ events → url = login_url.
Proof.
  intros Hfuel Hw Hall. rewrite acquisition_pass_run.
  destruct (login_returns cfg fuel login_url (username cfg) (password cfg)
              (log LaunchChrome w) Hfuel Hw) as (w2 & Hl).
  pose proof (login_same_output cfg fuel login_url (username cfg) (password cfg)
                (log LaunchChrome w)) as Hs.
  pose proof (login_gets cfg (λ url, url = login_url) fuel login_url
                (username cfg) (password cfg) eq_refl (log LaunchChrome w))
    as (evl & Htl & Hgl).
  rewrite Hl in Hs, Htl |- *. simpl in Hs, Htl.
  assert (same_output w w2) as Hs' by (by etrans; [|exact Hs]).
  cbv zeta. rewrite (same_output_csvs_missing_of _ _ _ Hs').
  rewrite (csvs_missing_of_all_scanned _ _ Hall).
  cbn [for_each length]. set (w3 := log _ w2).
  change ((mret tt : M unit) w3) with (Returned tt, w3). cbv beta iota.
  assert (same_output w w3) as Hs3 by (by etrans; [exact Hs'|]).
  rewrite (same_output_csvs_missing_of _ _ _ Hs3).
  rewrite (csvs_missing_of_all_scanned _ _ Hall).
  eexists _, ([LaunchChrome] ++ evl ++ [_; _]). split; [reflexivity|].
  split; [simpl; by destruct Hs'|]. split.
  - rewrite !log_trace. subst w3. rewrite log_trace, Htl.
    by rewrite <- !(assoc_L (++)).
  - intros url [Hin|[Hin|Hin]%elem_of_app]%elem_of_app.
    + by apply list_elem_of_singleton in Hin.
    + by apply (proj1 (Forall_forall _ _) Hgl) in Hin.
    + apply elem_of_cons in Hin as [?|Hin]; [done|].
      by apply list_elem_of_singleton in Hin.
Qed.

Lemma acquisition_pass_returned cfg fuel feeder_id_list w w' :
  acquisition_pass cfg fuel feeder_id_list w = (Returned tt, w') →
  output_grows w w' ∧
  (∀ id, id ∈ csvs_missing_of feeder_id_list w →
         is_Some (output_folder w' !! (id +:+ ".csv"))) ∧
  last (trace w') = Some (PrintList (csvs_missing_of feeder_id_list w')).
Proof.
  rewrite acquisition_pass_run.
  pose proof (login_same_output cfg fuel login_url (username cfg) (password cfg)
                (log LaunchChrome w)) as Hs.
  destruct (login _ _ _ _ _ _) as [[[]| |] w2]; [|done..]. simpl in Hs.
  assert (same_output w w2) as Hs' by (by etrans; [|exact Hs]).
  cbv zeta. rewrite (same_output_csvs_missing_of _ _ _ Hs').
  set (w3 := log _ w2).
  pose proof (preserves_for_each output_grows (csvs_missing_of feeder_id_list w)
                (driver_step cfg fuel)
                ltac:(intros; apply driver_step_output_grows) w3) as Hg.
  pose proof (for_each_returned output_grows
                (λ id w, is_Some (output_folder w !! (id +:+ ".csv")))
                (csvs_missing_of feeder_id_list w) (driver_step cfg fuel)
                (driver_step_output_grows cfg fuel)
                (driver_step_returned cfg fuel)) as Hq.
  destruct (for_each _ _ w3) as [[[]| |] w4] eqn:Hfe; [|done..]. simpl in Hg.
  intros [= <-]. split; [|split].
  - etrans; [apply (same_output_grows w w3); by etrans; [exact Hs'|]|].
    etrans; [exact Hg|]. by apply same_output_grows.
  - intros id Hid. simpl. apply (Hq ltac:(
      intros x wa wb Hx (Hd & _); apply elem_of_dom; apply Hd; by apply elem_of_dom)
      w3 w4 Hfe id Hid).
  - by rewrite log_trace, last_snoc.
Qed.

Lemma plain_stem_scanned w id :
  plain_folder w →
  is_Some (output_folder w !! (id +:+ ".csv")) → plain_stem w id → id ∈ scanned w.
Proof. intros Hplain [t Ht] (H1 & H2 & H3). by apply (stem_is_scanned w id t). Qed.

(** After a pass in a plain folder that returned, every feeder with a
    plain stem is in the inventory. *)
Lemma scanned_after_pass cfg fuel feeder_id_list w w' id :
  acquisition_pass cfg fuel feeder_id_list w = (Returned tt, w') →
  plain_folder w →
  id ∈ feeder_id_list → plain_stem w id → id ∈ scanned w'.
Proof.
  intros (Hg & Hall & _)%acquisition_pass_returned Hplain Hid Hp.
  destruct (decide (id ∈ scanned w)) as [Hs|Hs].
  - by apply (scanned_output_grows w).
  - apply plain_stem_scanned.
    + by apply (output_grows_plain_folder w).
    + apply Hall, elem_of_csvs_missing_of. done.
    + destruct Hg as (_ & Hc & _). unfold plain_stem. by rewrite Hc.
Qed.

(** X3. A pass that returns has a table [<id>.csv] in the output folder
    for every feeder that was on the missing list when it began, keeps
    every file the folder had, and ends by printing the missing list as
    the inventory stands at the end. *)
Theorem finished_pass_has_every_missing_table cfg fuel feeder_id_list w w' :
  acquisition_pass cfg fuel feeder_id_list w = (Returned tt, w') →
  dom (output_folder w) ⊆ dom (output_folder w') ∧
  (∀ id, id ∈ feeder_id_list → id ∉ scanned w →
         is_Some (output_folder w' !! (id +:+ ".csv"))) ∧
  last (trace w') = Some (PrintList (csvs_missing_of feeder_id_list w')).
Proof.
  intros ((Hd & _) & Hall & Hlast)%acquisition_pass_returned.
  split; [done|]. split; [|done].
  intros id Hid Hs. apply Hall, elem_of_csvs_missing_of. done.
Qed.

(** X4. In a plain output folder (below the root of a drive, no
    character in its path that [glob] reads as a pattern): when every
    feeder has its table in the folder, under a plain file name, and the
    login page opens, the pass returns, sends the browser to the login
    page and nowhere else, leaves the output folder as it was and prints
    an empty final list. *)
Theorem pass_with_all_present_fetches_nothing cfg fuel feeder_id_list w :
  Z.to_nat (tries cfg) ≤ fuel →
  head (window_faults w) ≠ Some true →
  plain_folder w →
  (∀ id, id ∈ feeder_id_list →
         is_Some (output_folder w !! (id +:+ ".csv")) ∧ plain_stem w id) →
  ∃ w' events,
    acquisition_pass cfg fuel feeder_id_list w = (Returned tt, w') ∧
    output_folder w' = output_folder w ∧
    trace w' = trace w ++ events ++ [PrintList []] ∧
    ∀ url, Get url ∈ events → url = login_url.
Proof.
  intros Hfuel Hw Hplain Hall. apply acquisition_pass_nothing_missing; [done..|].
  intros id [Hf Hp]%Hall. by apply plain_stem_scanned.
Qed.

(** X5. Two passes in succession, in a plain output folder (below the
    root of a drive, no character in its path that [glob] reads as a
    pattern): after a pass that returned, with feeders of plain stems, a
    second pass has nothing on its missing list; it goes to the login
    page only, writes nothing, and prints an empty final list, as the
    first pass already did. *)
Theorem second_pass_fetches_nothing cfg fuel feeder_id_list w w' :
  acquisition_pass cfg fuel feeder_id_list w = (Returned tt, w') →
  Z.to_nat (tries cfg) ≤ fuel →
  head (window_faults w') ≠ Some true →
  plain_folder w →
  (∀ id, id ∈ feeder_id_list → plain_stem w id) →
  last (trace w') = Some (PrintList []) ∧
  ∃ w'' events,
    acquisition_pass cfg fuel feeder_id_list w' = (Returned tt, w'') ∧
    output_folder w'' = output_folder w' ∧
    trace w'' = trace w' ++ events ++ [PrintList []] ∧
    ∀ url, Get url ∈ events → url = login_url.
Proof.
  intros Hrun Hfuel Hw Hplain Hp.
  assert (∀ id, id ∈ feeder_id_list → id ∈ scanned w') as Hall.
  { intros id Hid. apply (scanned_after_pass cfg fuel feeder_id_list w); auto. }
  split.
  - apply acquisition_pass_returned in Hrun as (_ & _ & ->).
    by rewrite csvs_missing_of_all_scanned.
  - by apply acquisition_pass_nothing_missing.
Qed.

(** X6. The first loop of [process_zip] never raises.  It navigates to
    the archive's URL until the window is there, at most [tries] times,
    printing and sleeping a second after each navigation that found the
    window gone; when all [tries] navigations have failed it returns all
    the same, with nothing said to the caller. *)
Theorem fetch_gives_up_silently cfg fuel prefix id w :
  Z.to_nat (tries cfg) ≤ fuel →
  ∃ i w' (k : nat) (final : list event),
    fetch cfg fuel prefix id w = (Returned i, w') ∧
    trace w' = trace w
               ++ concat (replicate k (failed_navigation (prefix +:+ id +:+ ".zip")))
               ++ final ∧
    (final = [Get (prefix +:+ id +:+ ".zip"); Print ("downloaded " +:+ id)]
       ∧ k < Z.to_nat (tries cfg)
     ∨ final = [] ∧ k = Z.to_nat (tries cfg)).
Proof.
  intros Hfuel.
  destruct (fetch_loop_attempts cfg fuel prefix id 0 w) as (i & w' & k & final & H).
  { unfold iterations_left. by rewrite Z.sub_0_r. }
  unfold iterations_left in H. rewrite Z.sub_0_r in H. by exists i, w', k, final.
Qed.

Lemma login_lost_window cfg fuel url u p w :
  head (window_faults w) = Some true →
  ∃ w', login cfg fuel url u p w = (Raised NoSuchWindowException, w') ∧
        trace w' = trace w ++ [Get url] ∧ same_output w w'.
Proof.
  intros Hw. unfold login. rewrite bind_run.
  pose proof (driver_get_trace url w) as Ht.
  pose proof (driver_get_same_output url w) as Hs.
  destruct (driver_get_result url w) as [[_ Hr]|[Hr _]]; [done|].
  destruct (driver_get url w) as [r w1]. simpl in *. subst r. by exists w1.
Qed.

(** X7. The navigation to the login page is outside any handler: when
    the browser window is gone at that moment, the no-such-window
    exception that [process_zip] would retry ends [login] and with it the
    pass, before any feeder is looked at. *)
Theorem lost_window_at_login_ends_the_pass cfg fuel feeder_id_list w :
  head (window_faults w) = Some true →
  ∃ w', acquisition_pass cfg fuel feeder_id_list w = (Raised NoSuchWindowException, w') ∧
        trace w' = trace w ++ [LaunchChrome; Get login_url] ∧
        output_folder w' = output_folder w.
Proof.
  intros Hw. rewrite acquisition_pass_run.
  destruct (login_lost_window cfg fuel login_url (username cfg) (password cfg)
              (log LaunchChrome w) Hw) as (w' & -> & Ht & (Ho & _)).
  exists w'. split; [done|]. split; [|done].
  by rewrite Ht, log_trace, <- (assoc_L (++)).
Qed.

Lemma login_raises cfg fuel url u p :
  raises_within (λ e, e = NoSuchWindowException) (login cfg fuel url u p).
Proof.
  unfold login. apply raises_within_bind.
  - intros w e He. destruct (driver_get_result url w) as [[Hr _]|[Hr _]]; congruence.
  - intros _. apply raises_within_bind; [by intros w e|]. intros _.
    apply raises_within_bind; [|intros _; by intros w e].
    eapply raises_within_weaken; [|apply raises_within_while, login_body_never_raises].
    done.
Qed.

Lemma acquisition_pass_raises cfg fuel feeder_id_list :
  raises_within
    (λ e, e = NoSuchWindowException ∨ e = UnboundLocalError "df" ∨
          ∃ id, id ∈ feeder_id_list ∧ e = KeyError (id +:+ ".csv"))
    (acquisition_pass cfg fuel feeder_id_list).
Proof.
  intros w e. rewrite acquisition_pass_run.
  pose proof (login_raises cfg fuel login_url (username cfg) (password cfg)
                (log LaunchChrome w)) as Hl.
  destruct (login _ _ _ _ _ _) as [[[]|e'|] w2]; simpl in *;
    [|intros [= <-]; left; by apply Hl|done].
  cbv zeta.
  set (E := λ e : exn, e = NoSuchWindowException ∨ e = UnboundLocalError "df" ∨
                       ∃ id, id ∈ feeder_id_list ∧ e = KeyError (id +:+ ".csv")).
  assert (raises_within E
            (for_each (csvs_missing_of feeder_id_list w2) (driver_step cfg fuel))) as Hf.
  { apply raises_within_for_each. intros id [Hid _]%elem_of_csvs_missing_of.
    apply raises_within_bind; [by intros ??|]. intros _ w0 e0 He0.
    destruct (process_zip_not_returned cfg fuel data_url id w0) as [_ Hc];
      [by rewrite He0|].
    destruct (Hc e0 He0) as [->| ->]; [right; by left|right; right; by exists id]. }
  specialize (Hf (log (Print ("retrieving " +:+
                   pretty (length (csvs_missing_of feeder_id_list w2)) +:+ " feeder IDs")) w2)).
  destruct (for_each _ _ _) as [[[]|e'|] w4]; simpl in *; [done| |done].
  intros [= <-]. by apply Hf.
Qed.

(** X8. Of the exceptions of this development, those that leave the
    script are the one for a shapefile that cannot be read, the one for a
    shapefile without a FeederID column, the [FileNotFoundError] of
    [os.chdir] for an output folder that is not there, the no-such-window
    exception of the navigation to the login page, the [NameError] for
    the unassigned [df] and the [KeyError] for an archive without its
    member.  A [FileNotFoundError] comes from [os.chdir] and from nowhere
    else: inside the pass the file-not-found, bad-archive and
    no-such-element exceptions are always handled. *)
Theorem exceptions_that_leave_the_script cfg fuel w e :
  (main cfg fuel w).1 = Raised e →
  e = DriverError (feedershp_dir cfg) ∨
  e = AttributeError "FeederID" ∨
  e = FileNotFoundError ∧ df_dir cfg ∉ folders w ∨
  e = NoSuchWindowException ∨
  e = UnboundLocalError "df" ∨ ∃ id, e = KeyError (id +:+ ".csv").
Proof.
  unfold main. rewrite bind_run. unfold read_feeder_ids. simpl.
  destruct (shapefiles w !! feedershp_dir cfg) as [[ids|]|]; simpl;
    [|intros [= <-]; right; by left|intros [= <-]; by left].
  rewrite bind_run. unfold os_chdir. simpl.
  destruct (decide (df_dir cfg ∈ folders w)) as [Hdir|Hdir]; simpl;
    [|intros [= <-]; right; right; by left].
  destruct (download_csvs cfg); [|done].
  intros [->|[->|(id & _ & ->)]]%acquisition_pass_raises; eauto 7.
Qed.

(** X9. The list the driver loops over has each feeder ID that is not in
    the inventory once, however often the shapefile lists it, and nothing
    else; computing it changes nothing. *)
Theorem missing_lists_each_absent_feeder_once feeder_id_list csvs_dl w :
  ∃ csvs_missing,
    missing feeder_id_list csvs_dl w = (Returned csvs_missing, w) ∧
    NoDup csvs_missing ∧
    ∀ id, id ∈ csvs_missing ↔ id ∈ feeder_id_list ∧ id ∉ csvs_dl.
Proof.
  eexists. split; [reflexivity|]. split.
  - rewrite merge_sort_Permutation. apply NoDup_elements.
  - intros id. rewrite merge_sort_Permutation, elem_of_elements.
    by rewrite elem_of_difference, !elem_of_list_to_set.
Qed.

(** ** How long the script sleeps *)

Lemma slept_app (a b : list event) : slept (a ++ b) = slept a + slept b.
Proof. apply sum_list_with_app. Qed.

Lemma sleeps_within_refl w : sleeps_within 0 w w.
Proof. exists []. by rewrite app_nil_r. Qed.

Lemma sleeps_within_trans a b w1 w2 w3 :
  sleeps_within a w1 w2 → sleeps_within b w2 w3 → sleeps_within (a + b) w1 w3.
Proof.
  intros (e1 & H1 & L1) (e2 & H2 & L2). exists (e1 ++ e2).
  rewrite H2, H1, <- (assoc_L (++)), slept_app. split; [done|lia].
Qed.

Lemma sleeps_within_mono a b w w' : a ≤ b → sleeps_within a w w' → sleeps_within b w w'.
Proof. intros Hab (e & H & L). exists e. split; [done|lia]. Qed.

Lemma sleeps_within_events n w w' events :
  trace w' = trace w ++ events → slept events ≤ n → sleeps_within n w w'.
Proof. intros. by exists events. Qed.

(** A loop whose passes each sleep at most [c] seconds and, unless they
    leave, decrease a measure sleeps at most [c] times the measure. *)
Lemma while_sleeps {L} (c : nat) (measure : L → nat) (cond : L → bool)
    (body : L → M (flow * L)) :
  (∀ l, cond l = true → 0 < measure l) →
  (∀ l w, cond l = true →
     sleeps_within c w (body l w).2 ∧
     match (body l w).1 with
     | Returned (Next, l') => measure l' < measure l
     | _ => True
     end) →
  ∀ fuel l w, sleeps_within (c * measure l) w (while fuel cond body l w).2.
Proof.
  intros Hpos Hbody fuel. induction fuel as [|fuel IH]; intros l w;
    rewrite while_unfold; destruct (cond l) eqn:Hc;
    try (apply (sleeps_within_mono 0); [lia|apply sleeps_within_refl]).
  rewrite bind_run. destruct (Hbody l w Hc) as [Hs Hm]. specialize (Hpos l Hc).
  destruct (body l w) as [[[[] l']| |] w']; simpl in *;
    try (apply (sleeps_within_mono c); [nia|done]).
  apply (sleeps_within_mono (c + c * measure l')); [nia|].
  eapply sleeps_within_trans; [exact Hs|apply IH].
Qed.

Section SleepBudget.

Context (cfg : config).

Lemma fetch_body_sleeps prefix id i w :
  sleeps_within 1 w (fetch_body prefix id i w).2.
Proof.
  rewrite fetch_body_run.
  pose proof (driver_get_trace (prefix +:+ id +:+ ".zip") w) as Ht.
  destruct (driver_get_result (prefix +:+ id +:+ ".zip") w) as [[Hr _]|[Hr _]];
    destruct (driver_get _ w) as [r w1]; simpl in Hr, Ht; subst r; cbv beta iota.
  - eapply sleeps_within_events.
    + cbn [snd]. rewrite log_trace, Ht, <- (assoc_L (++)). reflexivity.
    + vm_compute. lia.
  - eapply sleeps_within_events.
    + cbn [snd]. rewrite tick_trace, !log_trace, Ht, <- !(assoc_L (++)). reflexivity.
    + vm_compute. lia.
Qed.

Lemma extract_body_sleeps id l w :
  sleeps_within 2 w (extract_body cfg id l w).2.
Proof.
  destruct l as [[i b] df].
  destruct (download_folder w !! (id +:+ ".zip")) as [[|members]|] eqn:Hz.
  - rewrite (extract_body_corrupt _ _ _ _ _ _ Hz). eapply sleeps_within_events.
    + cbn [snd]. rewrite !log_trace, <- !(assoc_L (++)). reflexivity.
    + vm_compute. lia.
  - rewrite (extract_body_zip _ _ _ _ _ _ _ Hz). cbv zeta.
    destruct (members !! (id +:+ ".csv")); eapply sleeps_within_events;
      try (cbn [snd]; rewrite !log_trace, <- !(assoc_L (++)); reflexivity);
      vm_compute; lia.
  - rewrite (extract_body_missing _ _ _ _ _ _ Hz). eapply sleeps_within_events.
    + cbn [snd]. rewrite tick_trace, !log_trace, <- !(assoc_L (++)). reflexivity.
    + vm_compute. lia.
Qed.

Lemma cleanup_body_sleeps id badzip i w :
  sleeps_within 2 w (cleanup_body cfg id badzip i w).2.
Proof.
  destruct (download_folder w !! (id +:+ ".zip")) as [a|] eqn:Hz.
  - rewrite (cleanup_body_present _ _ _ _ _ _ Hz). eapply sleeps_within_events.
    + cbn [snd]. rewrite log_trace.
      change (trace (set_download_folder ?d ?w0)) with (trace w0).
      rewrite !log_trace, <- !(assoc_L (++)). reflexivity.
    + vm_compute. lia.
  - rewrite (cleanup_body_missing _ _ _ _ _ Hz). eapply sleeps_within_events.
    + cbn [snd]. rewrite tick_trace, !log_trace, <- !(assoc_L (++)). reflexivity.
    + vm_compute. lia.
Qed.

Lemma slept_attempt_events u p w : slept (attempt_events u p w) = 0.
Proof.
  unfold attempt_events.
  by destruct (in_dom username_field w), (in_dom password_field w),
    (in_dom submit_button w).
Qed.

Lemma login_body_sleeps u p i w : sleeps_within 2 w (login_body u p i w).2.
Proof.
  rewrite login_body_run. destruct (attempt_succeeds w); cbn [snd].
  - eapply sleeps_within_events; [apply logs_trace|]. rewrite slept_attempt_events. lia.
  - eapply sleeps_within_events.
    + rewrite tick_trace, log_trace, logs_trace, <- !(assoc_L (++)). reflexivity.
    + rewrite slept_app, slept_attempt_events. vm_compute. lia.
Qed.

Lemma fetch_sleeps fuel prefix id w :
  sleeps_within (1 * Z.to_nat (tries cfg)) w (fetch cfg fuel prefix id w).2.
Proof.
  unfold fetch, fetch_loop.
  replace (Z.to_nat (tries cfg)) with (iterations_left cfg 0)
    by (unfold iterations_left; by rewrite Z.sub_0_r).
  apply (while_sleeps 1 (iterations_left cfg)); [apply iterations_left_pos|].
  intros i w0 Hc. split; [apply fetch_body_sleeps|].
  pose proof (fetch_body_advances prefix id i w0) as H.
  destruct (fetch_body _ _ _ _).1 as [[[] ?]| |]; try done.
  subst. by apply iterations_left_succ.
Qed.

Lemma extract_sleeps fuel id w :
  sleeps_within (2 * Z.to_nat (tries cfg)) w (extract cfg fuel id w).2.
Proof.
  unfold extract, extract_loop.
  replace (Z.to_nat (tries cfg)) with (iterations_left cfg 0)
    by (unfold iterations_left; by rewrite Z.sub_0_r).
  apply (while_sleeps 2 (λ l : locals, iterations_left cfg l.1.1));
    [intros ?; apply iterations_left_pos|].
  intros l w0 Hc. split; [apply extract_body_sleeps|]. cbn beta.
  pose proof (extract_body_advances cfg id l w0) as H.
  destruct (extract_body _ _ _ _).1 as [[[] l']| |]; try done.
  destruct H as [-> | ->]; [by apply iterations_left_succ|].
  apply iterations_left_pos in Hc. unfold iterations_left in *. lia.
Qed.

Lemma cleanup_sleeps fuel id badzip w :
  sleeps_within (2 * Z.to_nat (tries cfg)) w (cleanup cfg fuel id badzip w).2.
Proof.
  unfold cleanup, cleanup_loop.
  replace (Z.to_nat (tries cfg)) with (iterations_left cfg 0)
    by (unfold iterations_left; by rewrite Z.sub_0_r).
  apply (while_sleeps 2 (iterations_left cfg)); [apply iterations_left_pos|].
  intros i w0 Hc. split; [apply cleanup_body_sleeps|].
  pose proof (cleanup_body_advances cfg id badzip i w0) as H.
  destruct (cleanup_body _ _ _ _ _).1 as [[[] ?]| |]; try done.
  subst. by apply iterations_left_succ.
Qed.

Lemma login_loop_sleeps fuel u p w :
  sleeps_within (2 * Z.to_nat (tries cfg)) w (login_loop cfg fuel u p 0 w).2.
Proof.
  unfold login_loop.
  replace (Z.to_nat (tries cfg)) with (iterations_left cfg 0)
    by (unfold iterations_left; by rewrite Z.sub_0_r).
  apply (while_sleeps 2 (iterations_left cfg)); [apply iterations_left_pos|].
  intros i w0 Hc. split; [apply login_body_sleeps|].
  pose proof (login_body_advances u p i w0) as H.
  destruct (login_body _ _ _ _).1 as [[[] ?]| |]; try done.
  subst. by apply iterations_left_succ.
Qed.

Lemma process_zip_sleeps fuel prefix id w :
  sleeps_within (5 * Z.to_nat (tries cfg)) w (process_zip cfg fuel prefix id w).2.
Proof.
  rewrite process_zip_run.
  pose proof (fetch_sleeps fuel prefix id w) as H1.
  destruct (fetch cfg fuel prefix id w) as [[i0| |] w1]; simpl in H1;
    try (eapply sleeps_within_mono; [|exact H1]; lia).
  pose proof (extract_sleeps fuel id w1) as H2.
  pose proof (sleeps_within_trans _ _ _ _ _ H1 H2) as H12.
  destruct (extract cfg fuel id w1) as [[[[i b] df]| |] w2]; simpl in H2, H12;
    try (eapply sleeps_within_mono; [|exact H12]; lia).
  pose proof (cleanup_sleeps fuel id b w2) as H3.
  pose proof (sleeps_within_trans _ _ _ _ _ H12 H3) as H123.
  destruct (cleanup cfg fuel id b w2) as [[i3| |] w3]; simpl in H3, H123;
    try (eapply sleeps_within_mono; [|exact H123]; lia).
  rewrite save_run. destruct df as [t|]; cbn [snd];
    [|eapply sleeps_within_mono; [|exact H123]; lia].
  eapply sleeps_within_mono; [|eapply sleeps_within_trans; [exact H123|]].
  2: { apply (sleeps_within_events 0 _ _ [ToCsv (id +:+ ".csv")]); [done|]. vm_compute. lia. }
  lia.
Qed.

Lemma login_sleeps fuel url u p w :
  sleeps_within (2 * Z.to_nat (tries cfg) + 5) w (login cfg fuel url u p w).2.
Proof.
  unfold login. rewrite bind_run.
  pose proof (driver_get_trace url w) as Ht.
  destruct (driver_get_result url w) as [[Hr _]|[Hr _]];
    destruct (driver_get url w) as [r w1]; simpl in Hr, Ht; subst r; cbv beta iota.
  2: { apply (sleeps_within_events _ _ _ [Get url]); [done|]. vm_compute. lia. }
  rewrite bind_run. simpl. rewrite bind_run.
  set (w2 := tick 2 (log (Sleep 2) w1)).
  assert (sleeps_within 2 w w2) as H1.
  { apply (sleeps_within_events _ _ _ [Get url; Sleep 2]); [|vm_compute; lia].
    subst w2. by rewrite tick_trace, log_trace, Ht, <- (assoc_L (++)). }
  pose proof (login_loop_sleeps fuel u p w2) as H2.
  pose proof (sleeps_within_trans _ _ _ _ _ H1 H2) as H12.
  destruct (login_loop cfg fuel u p 0 w2) as [[i| |] w3]; simpl in H2, H12;
    try (eapply sleeps_within_mono; [|exact H12]; lia).
  simpl. eapply sleeps_within_mono; [|eapply sleeps_within_trans; [exact H12|]].
  2: { apply (sleeps_within_events 3 _ _ [Sleep 3]); [|vm_compute; lia].
       by rewrite tick_trace, log_trace. }
  lia.
Qed.

End SleepBudget.

(** X10. The script's waiting is bounded by the retry count alone: one
    call of [process_zip] sleeps at most [5 * tries] seconds in all (one
    per navigation, two per attempt to open and two per attempt to
    delete), and [login] at most [2 * tries + 5], however each ends. *)
Theorem sleep_is_bounded_by_tries cfg fuel prefix id url u p w :
  (∃ events, trace (process_zip cfg fuel prefix id w).2 = trace w ++ events ∧
             slept events ≤ 5 * Z.to_nat (tries cfg)) ∧
  (∃ events, trace (login cfg fuel url u p w).2 = trace w ++ events ∧
             slept events ≤ 2 * Z.to_nat (tries cfg) + 5).
Proof. split; [apply process_zip_sleeps|apply login_sleeps]. Qed.

(** ** Waiting for the browser *)

Lemma filter_filter_comm {A} (P Q : A → Prop) `{!∀ x, Decision (P x)}
    `{!∀ x, Decision (Q x)} (l : list A) :
  filter P (filter Q l) = filter Q (filter P l).
Proof.
  induction l as [|x l IH]; [done|].
  rewrite !filter_cons.
  destruct (decide (Q x)), (decide (P x)); rewrite ?filter_cons;
    repeat case_decide; try done; by rewrite IH.
Qed.

Lemma landings_in_flight due w :
  in_flight (foldl (λ w d, land d w) w due) = in_flight w.
Proof.
  revert w. induction due as [|d due IH]; intros w; simpl; [done|]. by rewrite IH.
Qed.

(** After transfers have landed, a name holds what the last of them
    saved under it, or what it held before. *)
Lemma landings_lookup name due w :
  download_folder (foldl (λ w d, land d w) w due) !! name =
  match last (filter (λ d, dl_name d = name) due) with
  | Some d => Some (dl_content d)
  | None => download_folder w !! name
  end.
Proof.
  revert w. induction due as [|d due IH]; intros w; simpl; [done|].
  rewrite IH, filter_cons. simpl.
  destruct (decide (dl_name d = name)) as [<-|Hne].
  - destruct (filter _ due) as [|d' l] eqn:E; simpl.
    + by rewrite lookup_insert_eq.
    + by destruct (last (d' :: l)) eqn:El; [|by apply last_None in El].
  - destruct (last _); [done|]. by rewrite lookup_insert_ne.
Qed.

Lemma tick_pending secs name w :
  pending name (tick secs w) =
  (λ d, Download (dl_name d) (dl_delay d - secs) (dl_content d)) <$>
    filter (λ d, ¬ dl_delay d ≤ secs) (pending name w).
Proof.
  unfold pending, tick. rewrite landings_in_flight. simpl.
  rewrite filter_filter_comm.
  generalize (filter (λ d, ¬ dl_delay d ≤ secs) (in_flight w)). intros l.
  induction l as [|d l IH]; [done|].
  rewrite fmap_cons, !filter_cons. simpl.
  destruct (decide (dl_name d = name)); by rewrite ?fmap_cons, IH.
Qed.

Lemma tick_lookup secs name w :
  download_folder (tick secs w) !! name =
  match last (filter (λ d, dl_delay d ≤ secs) (pending name w)) with
  | Some d => Some (dl_content d)
  | None => download_folder w !! name
  end.
Proof.
  unfold tick, pending. rewrite landings_lookup. simpl.
  by rewrite filter_filter_comm.
Qed.

(** The second loop waits for a transfer: with the archive not there yet
    and one transfer of it in flight that is due within [2 * k] seconds,
    the loop binds its table after at most [k] sleeps. *)
Lemma extract_loop_waits cfg id members t (k : nat) :
  members !! (id +:+ ".csv") = Some t →
  ∀ d fuel i b w,
    dl_content d = Zip members →
    1 ≤ k → (i + Z.of_nat k < tries cfg)%Z → k < fuel →
    download_folder w !! (id +:+ ".zip") = None →
    pending (id +:+ ".zip") w = [d] →
    dl_delay d ≤ 2 * k →
    ∃ i' w', extract_loop cfg fuel id (i, b, None) w = (Returned (i', b, Some t), w') ∧
             (i < i' ≤ i + Z.of_nat k)%Z ∧
             download_folder w' !! (id +:+ ".zip") = Some (Zip members).
Proof.
  intros Hmember.
  induction k as [|k IH];
    intros d fuel i b w Hcontent Hk Htries Hfuel Hnone Hpend Hdelay; [lia|].
  destruct fuel as [|fuel]; [lia|].
  rewrite extract_loop_unfold. cbn [fst].
  assert ((i <? tries cfg)%Z = true) as -> by (apply Z.ltb_lt; lia).
  rewrite bind_run, (extract_body_missing _ _ _ _ _ _ Hnone).
  set (w1 := tick 2 _).
  assert (pending (id +:+ ".zip") w1
          = (λ d, Download (dl_name d) (dl_delay d - 2) (dl_content d)) <$>
              filter (λ d, ¬ dl_delay d ≤ 2) [d]) as Hp1.
  { subst w1. rewrite tick_pending. unfold pending at 1. simpl.
    fold (pending (id +:+ ".zip") w). by rewrite Hpend. }
  assert (download_folder w1 !! (id +:+ ".zip")
          = match last (filter (λ d, dl_delay d ≤ 2) [d]) with
            | Some d => Some (dl_content d)
            | None => None
            end) as Hl1.
  { subst w1. rewrite tick_lookup. unfold pending at 1. simpl.
    fold (pending (id +:+ ".zip") w). by rewrite Hpend, Hnone. }
  rewrite !filter_cons, filter_nil in Hp1, Hl1. cbv beta iota.
  destruct (decide (dl_delay d ≤ 2)) as [Hdue|Hlater].
  - rewrite decide_False in Hp1 by lia. simpl in Hl1. rewrite Hcontent in Hl1.
    destruct fuel as [|fuel]; [lia|].
    rewrite extract_loop_unfold. cbn [fst].
    assert ((i + 1 <? tries cfg)%Z = true) as -> by (apply Z.ltb_lt; lia).
    rewrite bind_run, (extract_body_zip _ _ _ _ _ _ _ Hl1). cbv zeta.
    rewrite Hmember. eexists _, _. split; [done|]. split; [lia|done].
  - rewrite decide_True in Hp1 by lia. simpl in Hl1, Hp1.
    destruct (IH (Download (dl_name d) (dl_delay d - 2) (dl_content d))
                fuel (i + 1)%Z b w1) as (i' & w' & Hrun & Hi' & Hz);
      [exact Hcontent|lia|lia|lia|exact Hl1|exact Hp1|simpl; lia|].
    exists i', w'. split; [done|]. split; [lia|done].
Qed.

Lemma process_zip_bound cfg fuel prefix id w i0 w1 i b t w2 :
  fetch cfg fuel prefix id w = (Returned i0, w1) →
  extract cfg fuel id w1 = (Returned (i, b, Some t), w2) →
  ∃ w', process_zip cfg fuel prefix id w = (Returned tt, w').
Proof.
  intros Hf He. rewrite process_zip_run, Hf, He.
  apply extract_loop_bound in He as (_ & Hfuel & Htries & members & Hzip & _).
  destruct fuel as [|fuel]; [done|].
  destruct (cleanup_deletes_present cfg fuel id b w2 _ Htries Hzip) as (w3 & -> & _).
  rewrite save_run. by eexists.
Qed.

(** What a navigation that goes through starts. *)
Lemma driver_get_starts url w d :
  head (window_faults w) ≠ Some true →
  portal w !! url = Some d →
  (driver_get url w).1 = Returned tt ∧
  if decide (dl_delay d = 0)
  then download_folder (driver_get url w).2
       = <[dl_name d := dl_content d]> (download_folder w)
       ∧ in_flight (driver_get url w).2 = in_flight w
  else download_folder (driver_get url w).2 = download_folder w
       ∧ in_flight (driver_get url w).2 = in_flight w ++ [d].
Proof.
  intros Hw Hp. unfold driver_get. simpl.
  destruct (window_faults w) as [|[] faults]; [|done|]; simpl; rewrite Hp;
    destruct (decide (dl_delay d = 0)); done.
Qed.

Lemma fetch_goes_through cfg fuel prefix id w :
  (0 < tries cfg)%Z →
  (driver_get (prefix +:+ id +:+ ".zip") w).1 = Returned tt →
  fetch cfg (S fuel) prefix id w
  = (Returned 0%Z,
     log (Print ("downloaded " +:+ id)) (driver_get (prefix +:+ id +:+ ".zip") w).2).
Proof.
  intros Ht Hr. unfold fetch. rewrite fetch_loop_unfold.
  apply Z.ltb_lt in Ht. rewrite Ht, bind_run, fetch_body_run.
  destruct (driver_get _ w) as [r w1]. simpl in Hr. by subst r.
Qed.

(** X11. The polling works: when the portal serves a good archive for
    the feeder, saved under [<id>.zip] within [2 * k] seconds for some
    [k] below [tries], the window is there, and no [<id>.zip] is in the
    download folder or on its way already, [process_zip] returns with
    the archive's table written to [<id>.csv] and the archive deleted. *)
Theorem worker_waits_for_the_download cfg fuel prefix id w d members t (k : nat) :
  portal w !! (prefix +:+ id +:+ ".zip") = Some d →
  dl_name d = id +:+ ".zip" →
  dl_content d = Zip members →
  members !! (id +:+ ".csv") = Some t →
  dl_delay d ≤ 2 * k →
  (Z.of_nat k < tries cfg)%Z →
  k < fuel →
  head (window_faults w) ≠ Some true →
  download_folder w !! (id +:+ ".zip") = None →
  pending (id +:+ ".zip") w = [] →
  ∃ w', process_zip cfg fuel prefix id w = (Returned tt, w') ∧
        output_folder w' = <[id +:+ ".csv" := t]> (output_folder w) ∧
        download_folder w' !! (id +:+ ".zip") = None.
Proof.
  intros Hp Hname Hcontent Hmember Hdelay Htries Hfuel Hw Hnone Hpend.
  destruct (driver_get_starts _ _ _ Hw Hp) as [Hr Hstart].
  destruct fuel as [|fuel]; [lia|].
  pose proof (fetch_goes_through cfg fuel prefix id w ltac:(lia) Hr) as Hf.
  set (w1 := log _ _) in Hf.
  assert (∃ i w2, extract cfg (S fuel) id w1 = (Returned (i, false, Some t), w2))
    as (i & w2 & He).
  { unfold extract. destruct (decide (dl_delay d = 0)) as [H0|H0].
    - destruct Hstart as [Hd _]. rewrite extract_loop_unfold. cbn [fst].
      assert ((0 <? tries cfg)%Z = true) as -> by (apply Z.ltb_lt; lia).
      rewrite bind_run.
      assert (download_folder w1 !! (id +:+ ".zip") = Some (Zip members)) as Hz.
      { subst w1. simpl. by rewrite Hd, Hname, Hcontent, lookup_insert_eq. }
      rewrite (extract_body_zip _ _ _ _ _ _ _ Hz). cbv zeta. rewrite Hmember.
      by eexists _, _.
    - destruct Hstart as [Hd Hi].
      destruct (extract_loop_waits cfg id members t k Hmember d (S fuel) 0%Z false w1)
        as (i & w2 & He & _); [done|lia|lia|lia| | |done|by eexists _, _].
      + subst w1. simpl. by rewrite Hd.
      + subst w1. unfold pending in *. simpl. rewrite Hi, filter_app, Hpend.
        by rewrite filter_cons, decide_True. }
  destruct (process_zip_bound _ _ _ _ _ _ _ _ _ _ _ Hf He) as (w' & Hrun).
  exists w'. split; [done|].
  destruct (process_zip_returned _ _ _ _ _ _ Hrun) as (t' & Ho & Hgone & _).
  split; [|done]. rewrite Ho. f_equal.
  revert Hrun. rewrite process_zip_run, Hf, He.
  destruct (cleanup cfg (S fuel) id false w2) as [[| |] w3]; [|done..].
  rewrite save_run. intros [= <-]. simpl in Ho.
  apply (f_equal (λ m, m !! (id +:+ ".csv"))) in Ho.
  rewrite !lookup_insert_eq in Ho. congruence.
Qed.

(** ** An archive that arrives too late *)

Lemma later_zero d : Download (dl_name d) (dl_delay d - 0) (dl_content d) = d.
Proof. destruct d. simpl. by rewrite Nat.sub_0_r. Qed.

(** The second loop with the archive still on its way: every attempt
    that is left finds no file, and the transfer lands during the last
    sleep or stays in flight. *)
Lemma extract_loop_misses cfg id (r : nat) :
  ∀ d fuel i b w,
    (tries cfg - i = Z.of_nat r)%Z → r ≤ fuel →
    download_folder w !! (id +:+ ".zip") = None →
    pending (id +:+ ".zip") w = [d] →
    0 < dl_delay d → 2 * r < dl_delay d + 2 →
    ∃ w', extract_loop cfg fuel id (i, b, None) w = (Returned (tries cfg, b, None), w') ∧
          if decide (dl_delay d ≤ 2 * r)
          then download_folder w' !! (id +:+ ".zip") = Some (dl_content d)
               ∧ pending (id +:+ ".zip") w' = []
          else download_folder w' !! (id +:+ ".zip") = None
               ∧ pending (id +:+ ".zip") w'
                 = [Download (dl_name d) (dl_delay d - 2 * r) (dl_content d)].
Proof.
  induction r as [|r IH]; intros d fuel i b w Hi Hfuel Hnone Hpend Hpos Hdelay.
  - rewrite extract_loop_unfold. cbn [fst].
    assert ((i <? tries cfg)%Z = false) as -> by (apply Z.ltb_ge; lia).
    exists w. replace i with (tries cfg) by lia. split; [done|].
    rewrite decide_False by lia. by rewrite later_zero.
  - destruct fuel as [|fuel]; [lia|].
    rewrite extract_loop_unfold. cbn [fst].
    assert ((i <? tries cfg)%Z = true) as -> by (apply Z.ltb_lt; lia).
    rewrite bind_run, (extract_body_missing _ _ _ _ _ _ Hnone).
    set (w1 := tick 2 _).
    assert (pending (id +:+ ".zip") w1
            = (λ d, Download (dl_name d) (dl_delay d - 2) (dl_content d)) <$>
                filter (λ d, ¬ dl_delay d ≤ 2) [d]) as Hp1.
    { subst w1. rewrite tick_pending. unfold pending at 1. simpl.
      fold (pending (id +:+ ".zip") w). by rewrite Hpend. }
    assert (download_folder w1 !! (id +:+ ".zip")
            = match last (filter (λ d, dl_delay d ≤ 2) [d]) with
              | Some d => Some (dl_content d)
              | None => None
              end) as Hl1.
    { subst w1. rewrite tick_lookup. unfold pending at 1. simpl.
      fold (pending (id +:+ ".zip") w). by rewrite Hpend, Hnone. }
    rewrite !filter_cons, filter_nil in Hp1, Hl1. cbv beta iota.
    destruct (decide (dl_delay d ≤ 2)) as [Hdue|Hlater].
    + rewrite decide_False in Hp1 by lia. simpl in Hl1, Hp1.
      assert (r = 0) as -> by lia.
      rewrite extract_loop_unfold. cbn [fst].
      assert ((i + 1 <? tries cfg)%Z = false) as -> by (apply Z.ltb_ge; lia).
      exists w1. replace (i + 1)%Z with (tries cfg) by lia. split; [done|].
      by rewrite decide_True by lia.
    + rewrite decide_True in Hp1 by lia. simpl in Hl1, Hp1.
      destruct (IH (Download (dl_name d) (dl_delay d - 2) (dl_content d))
                  fuel (i + 1)%Z b w1) as (w' & Hrun & Hend);
        [lia|lia|exact Hl1|exact Hp1|simpl; lia|simpl; lia|].
      exists w'. split; [done|]. cbn [dl_delay dl_name dl_content] in Hend.
      destruct (decide (dl_delay d - 2 ≤ 2 * r)).
      * rewrite decide_True by lia. exact Hend.
      * rewrite decide_False by lia.
        replace (dl_delay d - 2 * S r) with (dl_delay d - 2 - 2 * r) by lia.
        exact Hend.
Qed.

(** The third loop waits as the second does: with the archive not there
    and one transfer of it due within [2 * k] seconds, it deletes the
    archive once it has landed. *)
Lemma cleanup_loop_waits cfg id (k : nat) :
  ∀ d fuel i b w,
    1 ≤ k → (i + Z.of_nat k < tries cfg)%Z → k < fuel →
    download_folder w !! (id +:+ ".zip") = None →
    pending (id +:+ ".zip") w = [d] →
    dl_delay d ≤ 2 * k →
    ∃ i' w', cleanup_loop cfg fuel id b i w = (Returned i', w') ∧
             download_folder w' !! (id +:+ ".zip") = None ∧
             pending (id +:+ ".zip") w' = [] ∧
             Print ("deleted " +:+ id) ∈ trace w'.
Proof.
  induction k as [|k IH]; intros d fuel i b w Hk Htries Hfuel Hnone Hpend Hdelay; [lia|].
  destruct fuel as [|fuel]; [lia|].
  rewrite cleanup_loop_unfold.
  assert ((i <? tries cfg)%Z = true) as -> by (apply Z.ltb_lt; lia).
  rewrite bind_run, (cleanup_body_missing _ _ _ _ _ Hnone).
  set (w1 := tick 2 _).
  assert (pending (id +:+ ".zip") w1
          = (λ d, Download (dl_name d) (dl_delay d - 2) (dl_content d)) <$>
              filter (λ d, ¬ dl_delay d ≤ 2) [d]) as Hp1.
  { subst w1. rewrite tick_pending. unfold pending at 1. simpl.
    fold (pending (id +:+ ".zip") w). by rewrite Hpend. }
  assert (download_folder w1 !! (id +:+ ".zip")
          = match last (filter (λ d, dl_delay d ≤ 2) [d]) with
            | Some d => Some (dl_content d)
            | None => None
            end) as Hl1.
  { subst w1. rewrite tick_lookup. unfold pending at 1. simpl.
    fold (pending (id +:+ ".zip") w). by rewrite Hpend, Hnone. }
  rewrite !filter_cons, filter_nil in Hp1, Hl1. cbv beta iota.
  destruct (decide (dl_delay d ≤ 2)) as [Hdue|Hlater].
  - rewrite decide_False in Hp1 by lia. simpl in Hl1, Hp1.
    destruct fuel as [|fuel]; [lia|].
    rewrite cleanup_loop_unfold.
    assert ((i + 1 <? tries cfg)%Z = true) as -> by (apply Z.ltb_lt; lia).
    rewrite bind_run, (cleanup_body_present _ _ _ _ _ _ Hl1).
    eexists _, _. split; [done|]. simpl.
    split; [apply lookup_delete_eq|]. split; [exact Hp1|].
    apply elem_of_app. right. by left.
  - rewrite decide_True in Hp1 by lia. simpl in Hl1, Hp1.
    destruct (IH (Download (dl_name d) (dl_delay d - 2) (dl_content d))
                fuel (i + 1)%Z b w1) as (i' & w' & Hrun & Hend);
      [lia|lia|lia|exact Hl1|exact Hp1|simpl; lia|].
    by exists i', w'.
Qed.

(** X12. An archive that arrives after the last attempt to open it and
    before the last attempt to delete it is deleted unread: with a
    transfer that takes more than [2 * (tries - 1)] and at most
    [4 * tries - 2] seconds, [process_zip] removes the archive when it
    lands, raises the [NameError] for the unassigned [df], and writes
    nothing. *)
Theorem late_archive_is_deleted_unread cfg fuel prefix id w d :
  portal w !! (prefix +:+ id +:+ ".zip") = Some d →
  dl_name d = id +:+ ".zip" →
  2 * Z.to_nat (tries cfg) < dl_delay d + 2 →
  dl_delay d + 2 ≤ 4 * Z.to_nat (tries cfg) →
  Z.to_nat (tries cfg) ≤ fuel →
  head (window_faults w) ≠ Some true →
  download_folder w !! (id +:+ ".zip") = None →
  pending (id +:+ ".zip") w = [] →
  ∃ w', process_zip cfg fuel prefix id w = (Raised (UnboundLocalError "df"), w') ∧
        Print ("deleted " +:+ id) ∈ trace w' ∧
        download_folder w' !! (id +:+ ".zip") = None ∧
        pending (id +:+ ".zip") w' = [] ∧
        output_folder w' = output_folder w.
Proof.
  intros Hp Hname Hlate Hsoon Hfuel Hw Hnone Hpend.
  destruct (driver_get_starts _ _ _ Hw Hp) as [Hr Hstart].
  destruct fuel as [|fuel]; [lia|].
  pose proof (fetch_goes_through cfg fuel prefix id w ltac:(lia) Hr) as Hf.
  set (w1 := log _ _) in Hf.
  rewrite decide_False in Hstart by lia. destruct Hstart as [Hd Hi].
  destruct (extract_loop_misses cfg id (Z.to_nat (tries cfg)) d (S fuel) 0%Z false w1)
    as (w2 & He & Hend); [lia|lia| | |lia|lia|].
  { subst w1. simpl. by rewrite Hd. }
  { subst w1. unfold pending in *. simpl. rewrite Hi, filter_app, Hpend.
    by rewrite filter_cons, decide_True. }
  fold (extract cfg (S fuel) id w1) in He.
  assert (∃ i w3, cleanup cfg (S fuel) id false w2 = (Returned i, w3) ∧
                  download_folder w3 !! (id +:+ ".zip") = None ∧
                  pending (id +:+ ".zip") w3 = [] ∧
                  Print ("deleted " +:+ id) ∈ trace w3) as (i & w3 & Hc & Hgone & Hp3 & Ht).
  { unfold cleanup. destruct (decide (dl_delay d ≤ 2 * Z.to_nat (tries cfg))).
    - destruct Hend as [Hz Hp2]. rewrite cleanup_loop_unfold.
      assert ((0 <? tries cfg)%Z = true) as -> by (apply Z.ltb_lt; lia).
      rewrite bind_run, (cleanup_body_present _ _ _ _ _ _ Hz).
      eexists _, _. split; [done|]. simpl.
      split; [apply lookup_delete_eq|]. split; [exact Hp2|].
      apply elem_of_app. right. by left.
    - destruct Hend as [Hz Hp2].
      eapply (cleanup_loop_waits cfg id (Z.to_nat (tries cfg) - 1));
        [lia|lia|lia|exact Hz|exact Hp2|simpl; lia]. }
  pose proof (process_zip_not_returned cfg (S fuel) prefix id w) as Hnr.
  revert Hnr. rewrite process_zip_run, Hf, He, Hc, save_run. cbn [fst snd].
  intros [Ho _]; [done|]. by exists w3.
Qed.

(** ** The login page while it loads *)

Lemma landings_page due w :
  page (foldl (λ w d, land d w) w due) = page w.
Proof.
  revert w. induction due as [|d due IH]; intros w; simpl; [done|]. by rewrite IH.
Qed.

Lemma in_dom_appears loc w :
  in_dom loc w = bool_decide (appears loc w = Some 0).
Proof.
  unfold in_dom, appears.
  destruct (list_find _ (page w)) as [[j [l [|n]]]|]; simpl;
    by rewrite ?bool_decide_eq_true_2, ?bool_decide_eq_false_2.
Qed.

Lemma list_find_later secs loc (l : list (locator * nat)) :
  (λ e, e.2.2) <$> list_find (λ e, e.1 = loc) (prod_map id (λ n, n - secs) <$> l)
  = (λ n, n - secs) <$> ((λ e, e.2.2) <$> list_find (λ e, e.1 = loc) l).
Proof.
  induction l as [|[l0 n] l IH]; [done|].
  rewrite fmap_cons. cbn [list_find prod_map fst snd id].
  destruct (decide (l0 = loc)); [done|].
  rewrite <- !option_fmap_compose in *.
  destruct (list_find _ (_ <$> l)) as [[j e]|], (list_find _ l) as [[j' e']|];
    simpl in *; congruence.
Qed.

Lemma appears_tick secs loc w :
  appears loc (tick secs w) = (λ n, n - secs) <$> appears loc w.
Proof.
  unfold appears, tick. rewrite landings_page. simpl. apply list_find_later.
Qed.

Lemma appears_logs loc events w : appears loc (logs events w) = appears loc w.
Proof.
  revert w. induction events as [|e events IH]; intros w; simpl; [done|].
  by rewrite IH.
Qed.

Lemma appears_driver_get loc url w :
  appears loc (driver_get url w).2 = appears loc w.
Proof.
  unfold driver_get, appears. simpl.
  destruct (window_faults w) as [|[] faults]; simpl; try done;
    destruct (portal w !! url) as [d|]; try done;
    by destruct (decide (dl_delay d = 0)).
Qed.

(** The loop of [login] with the username field there and the password
    field appearing during the [k]-th sleep: [k] passes type the
    username and stop at the password field, the next one submits. *)
Lemma login_loop_retypes cfg u p (k : nat) :
  ∀ b c fuel i w,
    appears username_field w = Some 0 →
    appears password_field w = Some b → 2 * k < b + 2 → b ≤ 2 * k →
    appears submit_button w = Some c → c ≤ 2 * k →
    (i + Z.of_nat k < tries cfg)%Z → k < fuel →
    ∃ i' w', login_loop cfg fuel u p i w = (Returned i', w') ∧
             trace w' = trace w ++ concat (replicate k (username_only u))
                                ++ filled_and_submitted u p.
Proof.
  induction k as [|k IH]; intros b c fuel i w Hu Hp Hlate Hsoon Hs Hc Htries Hfuel;
    (destruct fuel as [|fuel]; [lia|]); rewrite login_loop_unfold;
    (assert ((i <? tries cfg)%Z = true) as -> by (apply Z.ltb_lt; lia));
    rewrite bind_run, login_body_run; unfold attempt_succeeds, attempt_events;
    rewrite !in_dom_appears, Hu, Hp, Hs.
  - assert (b = 0) as -> by lia. assert (c = 0) as -> by lia.
    rewrite !bool_decide_eq_true_2 by done. simpl.
    eexists _, _. split; [done|]. simpl. by rewrite <- !(assoc_L (++)).
  - rewrite (bool_decide_eq_true_2 (Some 0 = Some 0)) by done.
    rewrite (bool_decide_eq_false_2 (Some b = Some 0)) by (intros [=]; lia).
    cbn [andb].
    set (w1 := tick 2 _).
    assert (∀ loc n, appears loc w = Some n → appears loc w1 = Some (n - 2)) as Hw1.
    { intros loc n Hn. subst w1. rewrite appears_tick.
      change (log (Sleep 2) ?w0) with (logs [Sleep 2] w0).
      by rewrite !appears_logs, Hn. }
    destruct (IH (b - 2) (c - 2) fuel (i + 1)%Z w1) as (i' & w' & Hrun & Ht);
      [by apply (Hw1 _ 0)|by apply Hw1|lia|lia|by apply Hw1|lia|lia|lia|].
    exists i', w'. split; [done|]. rewrite Ht. subst w1.
    rewrite tick_trace, log_trace, logs_trace. simpl.
    by rewrite <- !(assoc_L (++)).
Qed.

(** X13. A retry of the login form starts from the top: with the
    username field there and the password field appearing only during
    the [k]-th sleep of the loop, [login] sends the username to its field
    [k + 1] times, once in each of the [k] passes that stop at the
    password field and once in the pass that submits. *)
Theorem login_retypes_the_username cfg fuel url u p w a b c (k : nat) :
  head (window_faults w) ≠ Some true →
  appears username_field w = Some a → a ≤ 2 →
  appears password_field w = Some b → (0 < k → 2 * k < b) → b ≤ 2 * k + 2 →
  appears submit_button w = Some c → c ≤ 2 * k + 2 →
  (Z.of_nat k < tries cfg)%Z → k < fuel →
  ∃ w', login cfg fuel url u p w = (Returned tt, w') ∧
        trace w' = trace w ++ [Get url; Sleep 2]
                           ++ concat (replicate k (username_only u))
                           ++ filled_and_submitted u p ++ [Sleep 3].
Proof.
  intros Hw Hu Ha Hp Hlate Hsoon Hs Hc Htries Hfuel.
  unfold login. rewrite bind_run.
  pose proof (driver_get_result url w) as Hres.
  pose proof (driver_get_trace url w) as Htr.
  pose proof (λ loc, appears_driver_get loc url w) as Hap.
  destruct (driver_get url w) as [r w0]. cbn [fst snd] in *.
  assert (r = Returned tt) as ->.
  { destruct Hres as [[Hr _]|[_ Hgone]]; [exact Hr|by destruct Hw]. }
  rewrite bind_run. unfold time_sleep at 1.
  set (w1 := tick 2 _).
  assert (∀ loc n, appears loc w = Some n → appears loc w1 = Some (n - 2)) as Hw1.
  { intros loc n Hn. subst w1. rewrite appears_tick.
    change (log (Sleep 2) ?w0) with (logs [Sleep 2] w0).
    by rewrite !appears_logs, Hap, Hn. }
  destruct (login_loop_retypes cfg u p k (b - 2) (c - 2) fuel 0%Z w1)
    as (i' & w2 & Hrun & Ht);
    [|by apply Hw1|lia|lia|by apply Hw1|lia|lia|lia|].
  { rewrite (Hw1 _ _ Hu). f_equal. lia. }
  rewrite bind_run, Hrun. eexists. split; [done|].
  rewrite tick_trace, log_trace, Ht. subst w1.
  rewrite tick_trace, log_trace, Htr. by rewrite <- !(assoc_L (++)).
Qed.

Lemma late_archive_is_deleted_unread_witness :
  ∃ w', process_zip sample_config 20 data_url "B" (slow_world 45)
        = (Raised (UnboundLocalError "df"), w') ∧
        output_folder w' = ∅.
Proof.
  destruct (late_archive_is_deleted_unread sample_config 20 data_url "B" (slow_world 45)
              (Download "B.zip" 45 (Zip {[ "B.csv" := sample_table ]})))
    as (w' & Hrun & _ & _ & _ & Ho);
    [vm_compute; reflexivity|reflexivity|simpl; lia|simpl; lia|simpl; lia
    |vm_compute; discriminate|vm_compute; reflexivity|vm_compute; reflexivity|].
  exists w'. split; [exact Hrun|exact Ho].
Defined.

Lemma login_retypes_the_username_witness :
  ∃ w', login sample_config 20 login_url "user" "secret" (loading_world 5)
        = (Returned tt, w') ∧
        trace w' = [Get login_url; Sleep 2]
                   ++ concat (replicate 2 (username_only "user"))
                   ++ filled_and_submitted "user" "secret" ++ [Sleep 3].
Proof.
  destruct (login_retypes_the_username sample_config 20 login_url "user" "secret"
              (loading_world 5) 0 5 5 2)
    as (w' & Hrun & Ht);
    [vm_compute; discriminate|reflexivity|lia|reflexivity|lia|lia|reflexivity|lia
    |simpl; lia|lia|].
  exists w'. split; [exact Hrun|exact Ht].
Defined.

(** ** The further theorems at the concrete runs *)

Lemma worker_returns_only_after_saving_witness :
  ∃ t, output_folder (process_zip sample_config 20 data_url "B"
                        (fresh_world ["A"; "B"] "B")).2
       = <["B" +:+ ".csv" := t]> ∅.
Proof.
  destruct (worker_returns_only_after_saving sample_config 20 data_url "B"
              (fresh_world ["A"; "B"] "B")
              (process_zip sample_config 20 data_url "B" (fresh_world ["A"; "B"] "B")).2)
    as (t & Ho & _); [vm_compute; reflexivity|].
  exists t. exact Ho.
Defined.

Lemma worker_failure_writes_nothing_witness :
  output_folder (process_zip sample_config 20 data_url "A"
                   (fresh_world ["A"; "B"] "A")).2
  = output_folder (fresh_world ["A"; "B"] "A").
Proof.
  destruct (worker_failure_writes_nothing sample_config 20 data_url "A"
              (fresh_world ["A"; "B"] "A")) as [Ho _];
    [vm_compute; discriminate|exact Ho].
Defined.

Lemma finished_pass_has_every_missing_table_witness :
  is_Some (output_folder
             (acquisition_pass sample_config 20 ["A"; "B"; "C"]
                (healthy_world ["A"; "B"; "C"])).2 !! ("C" +:+ ".csv")).
Proof.
  destruct (finished_pass_has_every_missing_table sample_config 20 ["A"; "B"; "C"]
              (healthy_world ["A"; "B"; "C"])
              (acquisition_pass sample_config 20 ["A"; "B"; "C"]
                 (healthy_world ["A"; "B"; "C"])).2)
    as (_ & Hall & _); [vm_compute; reflexivity|].
  apply Hall; [|vm_compute; apply not_elem_of_nil].
  apply (bool_decide_unpack _). vm_compute. exact I.
Defined.

Lemma plain_stems_of_the_feeders w :
  cwd w = cwd (fresh_world [] "A") →
  ∀ id, id ∈ ["A"; "B"; "C"] → plain_stem w id.
Proof.
  intros Hc id Hid. unfold plain_stem. rewrite Hc.
  repeat (apply elem_of_cons in Hid as [->|Hid]);
    [repeat split; vm_compute; reflexivity..|by apply elem_of_nil in Hid].
Qed.

Lemma pass_with_all_present_fetches_nothing_witness :
  ∃ w' events,
    acquisition_pass sample_config 20 ["A"; "B"]
      (stocked_world ["A"; "B"] {[ "A.csv" := sample_table; "B.csv" := sample_table ]})
    = (Returned tt, w') ∧
    trace w' = events ++ [PrintList []].
Proof.
  destruct (pass_with_all_present_fetches_nothing sample_config 20 ["A"; "B"]
              (stocked_world ["A"; "B"]
                 {[ "A.csv" := sample_table; "B.csv" := sample_table ]}))
    as (w' & events & Hrun & _ & Ht & _).
  - vm_compute. lia.
  - vm_compute. discriminate.
  - split; reflexivity.
  - intros id Hid. split.
    + repeat (apply elem_of_cons in Hid as [->|Hid]);
        [vm_compute; by eexists..|by apply elem_of_nil in Hid].
    + apply plain_stems_of_the_feeders; [reflexivity|].
      repeat (apply elem_of_cons in Hid as [->|Hid]);
        [by left|by right; left|by apply elem_of_nil in Hid].
  - exists w', events. split; [exact Hrun|exact Ht].
Defined.

Lemma second_pass_fetches_nothing_witness :
  let w' := (acquisition_pass sample_config 20 ["A"; "B"; "C"]
               (healthy_world ["A"; "B"; "C"])).2 in
  last (trace w') = Some (PrintList []) ∧
  ∃ w'' events,
    acquisition_pass sample_config 20 ["A"; "B"; "C"] w' = (Returned tt, w'') ∧
    output_folder w'' = output_folder w' ∧
    trace w'' = trace w' ++ events ++ [PrintList []] ∧
    ∀ url, Get url ∈ events → url = login_url.
Proof.
  apply (second_pass_fetches_nothing sample_config 20 ["A"; "B"; "C"]
           (healthy_world ["A"; "B"; "C"])).
  - vm_compute. reflexivity.
  - vm_compute. lia.
  - vm_compute. discriminate.
  - split; reflexivity.
  - by apply plain_stems_of_the_feeders.
Defined.

Lemma fetch_gives_up_silently_witness :
  ∃ i w', fetch sample_config 20 data_url "A"
            (set_window_faults (replicate 20 true) (fresh_world ["A"; "B"] "A"))
          = (Returned i, w').
Proof.
  destruct (fetch_gives_up_silently sample_config 20 data_url "A"
              (set_window_faults (replicate 20 true) (fresh_world ["A"; "B"] "A")))
    as (i & w' & _ & _ & Hrun & _); [vm_compute; lia|].
  exists i, w'. exact Hrun.
Defined.

Lemma lost_window_at_login_ends_the_pass_witness :
  ∃ w', acquisition_pass sample_config 20 ["A"; "B"]
          (set_window_faults [true] (fresh_world ["A"; "B"] "A"))
        = (Raised NoSuchWindowException, w').
Proof.
  destruct (lost_window_at_login_ends_the_pass sample_config 20 ["A"; "B"]
              (set_window_faults [true] (fresh_world ["A"; "B"] "A")))
    as (w' & Hrun & _); [reflexivity|].
  exists w'. exact Hrun.
Defined.

Lemma exceptions_that_leave_the_script_witness :
  FileNotFoundError = DriverError (feedershp_dir sample_config) ∨
  FileNotFoundError = AttributeError "FeederID" ∨
  FileNotFoundError = FileNotFoundError ∧ df_dir sample_config ∉ folders unprepared_world ∨
  FileNotFoundError = NoSuchWindowException ∨
  FileNotFoundError = UnboundLocalError "df" ∨
  ∃ id, FileNotFoundError = KeyError (id +:+ ".csv").
Proof.
  apply (exceptions_that_leave_the_script sample_config 20 unprepared_world).
  vm_compute. reflexivity.
Defined.

Lemma worker_waits_for_the_download_witness :
  ∃ w', process_zip sample_config 20 data_url "B" (fresh_world ["A"; "B"] "B")
        = (Returned tt, w') ∧
        output_folder w' = <["B" +:+ ".csv" := sample_table]> ∅.
Proof.
  destruct (worker_waits_for_the_download sample_config 20 data_url "B"
              (fresh_world ["A"; "B"] "B")
              (Download "B.zip" 3 (Zip {[ "B.csv" := sample_table ]}))
              {[ "B.csv" := sample_table ]} sample_table 2)
    as (w' & Hrun & Ho & _);
    [vm_compute; reflexivity|reflexivity|reflexivity|vm_compute; reflexivity
    |simpl; lia|vm_compute; reflexivity|lia|vm_compute; discriminate
    |vm_compute; reflexivity|vm_compute; reflexivity|].
  exists w'. split; [exact Hrun|exact Ho].
Defined.
